(** * Worker agent: resource admission and task execution

    A shallow embedding of [src/core/agent/worker.py].

    The worker runs on one asyncio event loop: between two [await]s that
    really suspend, a coroutine runs without interruption.  The embedding
    therefore cuts every coroutine at its suspension points and lets an
    event trace choose which piece runs next.

    Quantities are Python [float]s, that is IEEE 754 binary64, and are
    modelled by Rocq's primitive floats, whose operations round the same
    way.  The integer literals of the source defaults ([8], [1]) stand for
    the floats they denote. *)

From Stdlib Require Import ZArith String List.
From Stdlib Require Import Floats.PrimFloat Floats.FloatAxioms.
From stdpp Require Import base option list gmap strings.

Set Warnings "-inexact-float".
Local Open Scope string_scope.
Local Open Scope list_scope.

(** ** Data model *)

Definition TaskID := string.

(** [ResourceProfile = Dict[str, float]]. *)
Abbreviation ResourceProfile := (gmap string float).

(** The exceptions the worker meets.  [CancelledError] derives from
    [BaseException] and is the only one that [except Exception] lets
    through. *)
Inductive exn :=
| KeyError (key : string)
| ValueError (msg : string)
| TimeoutError
| CancelledError
| ValidationError (field : string)
| OtherError (description : string).

Definition is_Exception (e : exn) : bool :=
  match e with
  | CancelledError => false
  | _ => true
  end.

(** [str(e)].  A [KeyError] prints the [repr] of its key, which is the
    key between single quotes for a key of printable characters without
    quote or backslash, such as the "cpu" and "mem_gb" the worker looks
    up; the [repr] of other keys is not modelled.  The text of a
    [ValidationError] is pydantic's and only its field is kept. *)
Definition str (e : exn) : string :=
  match e with
  | KeyError k => "'" +:+ k +:+ "'"
  | ValueError m => m
  | TimeoutError => ""
  | CancelledError => ""
  | ValidationError f => f
  | OtherError d => d
  end.

Inductive result (A : Type) :=
| Ok (a : A)
| Raise (e : exn).
Arguments Ok {A} a.
Arguments Raise {A} e.

(** [WorkerConfig]; [max_concurrent_tasks] is declared [Field(5, gt=0)]. *)
Record WorkerConfig := {
  max_concurrent_tasks : nat;
  task_timeout : Z;
  resource_limits : ResourceProfile;
  task_queue_endpoint : string
}.

Definition default_resource_limits : ResourceProfile :=
  <["cpu" := 2.0%float]> (<["mem_gb" := 8.0%float]> ∅).

(** The field defaults of [WorkerConfig]. *)
Definition WorkerConfig_default : WorkerConfig := {|
  max_concurrent_tasks := 5;
  task_timeout := 300;
  resource_limits := default_resource_limits;
  task_queue_endpoint := "http://task-queue:8000"
|}.

(** [WorkerConfig.validate_resources]: both kinds are read by name. *)
Definition validate_resources (v : ResourceProfile) : result ResourceProfile :=
  match v !! "cpu" with
  | None => Raise (KeyError "cpu")
  | Some c =>
      if PrimFloat.leb c 0%float then Raise (ValueError "Resource limits must be positive")
      else match v !! "mem_gb" with
           | None => Raise (KeyError "mem_gb")
           | Some m =>
               if PrimFloat.leb m 0%float
               then Raise (ValueError "Resource limits must be positive")
               else Ok v
           end
  end.

(** [TaskRequest].  The payload is opaque to the worker; the deadline is
    carried and never read. *)
Record TaskRequest := {
  task_id : TaskID;
  payload : string;
  priority : Z;
  deadline : option Z;
  required_resources : ResourceProfile
}.

Definition default_required_resources : ResourceProfile :=
  <["cpu" := 0.5%float]> (<["mem_gb" := 1.0%float]> ∅).

(** [TaskResult]; [metrics] is declared [Dict[str, float]]. *)
Record TaskResult := {
  result_task_id : TaskID;
  success : bool;
  metrics : gmap string float;
  artifacts : list string
}.

Record WorkerMetrics := {
  cpu_usage : float;
  mem_usage_gb : float;
  active_tasks : nat;
  queue_size : nat
}.

(** An [asyncio.Task] wrapping one [_execute_task(task)] coroutine.
    [Created]: scheduled by [create_task], not yet run.  [Awaiting]:
    suspended inside the [try], in [await self._run_task_impl(...)].
    [Done r]: the coroutine has returned or raised. *)
Inductive task_status :=
| Created
| Awaiting
| Done (r : result unit).

Record aio_task := {
  coro : TaskRequest;
  status : task_status
}.

(** The worker object together with the parts of its surroundings that the
    executor acts on: the tasks it gave to the event loop, the results that
    reached the reporter and the lines sent to the logger. *)
Record WorkerAgent := {
  worker_config : WorkerConfig;
  k8s : option (string * string);
  _task_registry : gmap TaskID nat;
  _resource_semaphore : nat;
  _current_load : ResourceProfile;
  loop_tasks : list aio_task;
  reported : list TaskResult;
  logged : list string
}.

(** ** State and exception passing

    A computation takes the worker and returns it together with a value or
    the exception that ended it. *)

Definition M (A : Type) : Type := WorkerAgent → result A * WorkerAgent.

Definition ret {A} (a : A) : M A := λ w, (Ok a, w).
Definition raise {A} (e : exn) : M A := λ w, (Raise e, w).
Definition bind {A B} (m : M A) (k : A → M B) : M B := λ w,
  match m w with
  | (Ok a, w1) => k a w1
  | (Raise e, w1) => (Raise e, w1)
  end.
Definition get : M WorkerAgent := λ w, (Ok w, w).
Definition modify (f : WorkerAgent → WorkerAgent) : M unit := λ w, (Ok tt, f w).

Declare Scope py_scope.
Delimit Scope py_scope with py.
Notation "x <- c1 ;; c2" := (bind c1 (λ x, c2))
  (at level 100, c1 at next level, right associativity) : py_scope.
Notation "c1 ;; c2" := (bind c1 (λ _, c2))
  (at level 100, right associativity) : py_scope.
Local Open Scope py_scope.

(** [try: body  except ...: handler]. *)
Definition try_except {A} (body : M A) (handler : exn → M A) : M A := λ w,
  match body w with
  | (Ok a, w1) => (Ok a, w1)
  | (Raise e, w1) => handler e w1
  end.

(** [try: body  finally: fin]: [fin] always runs; an exception of [fin]
    replaces the outcome of [body]. *)
Definition try_finally {A} (body : M A) (fin : M unit) : M A := λ w,
  let '(r, w1) := body w in
  match fin w1 with
  | (Ok _, w2) => (r, w2)
  | (Raise e, w2) => (Raise e, w2)
  end.

(** Field updates of the worker. *)
Definition set_registry (f : gmap TaskID nat → gmap TaskID nat) (w : WorkerAgent) : WorkerAgent :=
  {| worker_config := worker_config w; k8s := k8s w;
     _task_registry := f (_task_registry w);
     _resource_semaphore := _resource_semaphore w;
     _current_load := _current_load w; loop_tasks := loop_tasks w;
     reported := reported w; logged := logged w |}.

Definition set_semaphore (n : nat) (w : WorkerAgent) : WorkerAgent :=
  {| worker_config := worker_config w; k8s := k8s w;
     _task_registry := _task_registry w;
     _resource_semaphore := n;
     _current_load := _current_load w; loop_tasks := loop_tasks w;
     reported := reported w; logged := logged w |}.

Definition set_load (f : ResourceProfile → ResourceProfile) (w : WorkerAgent) : WorkerAgent :=
  {| worker_config := worker_config w; k8s := k8s w;
     _task_registry := _task_registry w;
     _resource_semaphore := _resource_semaphore w;
     _current_load := f (_current_load w); loop_tasks := loop_tasks w;
     reported := reported w; logged := logged w |}.

Definition set_loop_tasks (f : list aio_task → list aio_task) (w : WorkerAgent) : WorkerAgent :=
  {| worker_config := worker_config w; k8s := k8s w;
     _task_registry := _task_registry w;
     _resource_semaphore := _resource_semaphore w;
     _current_load := _current_load w; loop_tasks := f (loop_tasks w);
     reported := reported w; logged := logged w |}.

Definition add_reported (r : TaskResult) (w : WorkerAgent) : WorkerAgent :=
  {| worker_config := worker_config w; k8s := k8s w;
     _task_registry := _task_registry w;
     _resource_semaphore := _resource_semaphore w;
     _current_load := _current_load w; loop_tasks := loop_tasks w;
     reported := reported w ++ [r]; logged := logged w |}.

Definition add_logged (line : string) (w : WorkerAgent) : WorkerAgent :=
  {| worker_config := worker_config w; k8s := k8s w;
     _task_registry := _task_registry w;
     _resource_semaphore := _resource_semaphore w;
     _current_load := _current_load w; loop_tasks := loop_tasks w;
     reported := reported w; logged := logged w ++ [line] |}.

(** [d[k]] on a dict of floats. *)
Definition getitem (d : ResourceProfile) (k : string) : M float :=
  match d !! k with
  | Some x => ret x
  | None => raise (KeyError k)
  end.

(** [WorkerAgent.__init__]; [cfg] is what [WorkerConfig()] evaluates to and
    [k] the node and pod names of a [K8sWorkerAgent]. *)
Definition WorkerAgent_init (cfg : WorkerConfig) (k : option (string * string)) : WorkerAgent := {|
  worker_config := cfg;
  k8s := k;
  _task_registry := ∅;
  _resource_semaphore := max_concurrent_tasks cfg;
  _current_load := <["cpu" := 0.0%float]> (<["mem_gb" := 0.0%float]> ∅);
  loop_tasks := [];
  reported := [];
  logged := []
|}.

(** ** The resource ledger *)

(** [WorkerAgent._check_resources].  The operands are read left to right
    and [and] does not evaluate its right operand when the left is false. *)
Definition _check_resources (required : ResourceProfile) : M bool :=
  w <- get;;
  lc <- getitem (_current_load w) "cpu";;
  rc <- getitem required "cpu";;
  limc <- getitem (resource_limits (worker_config w)) "cpu";;
  if PrimFloat.leb (PrimFloat.add lc rc) limc then
    lm <- getitem (_current_load w) "mem_gb";;
    rm <- getitem required "mem_gb";;
    limm <- getitem (resource_limits (worker_config w)) "mem_gb";;
    ret (PrimFloat.leb (PrimFloat.add lm rm) limm)
  else ret false.

(** [self._current_load[k] += required[k]] and [-=]. *)
Definition load_iadd (k : string) (required : ResourceProfile) : M unit :=
  w <- get;;
  l <- getitem (_current_load w) k;;
  r <- getitem required k;;
  modify (set_load (insert k (PrimFloat.add l r))).

Definition load_isub (k : string) (required : ResourceProfile) : M unit :=
  w <- get;;
  l <- getitem (_current_load w) k;;
  r <- getitem required k;;
  modify (set_load (insert k (PrimFloat.sub l r))).

(** ** Admission *)

(** What a call of [_handle_task_request] comes to: the dict it returns,
    the exception it raises, or a wait for the semaphore. *)
Inductive admission :=
| Replied (response : gmap string string)
| Failed (e : exn)
| WaitsForSlot.

(** [asyncio.create_task(self._execute_task(task))]: the new task is put
    on the loop and does not run yet.  Its handle is its position. *)
Definition create_task (task : TaskRequest) (w : WorkerAgent) : nat * WorkerAgent :=
  (length (loop_tasks w),
   set_loop_tasks (λ ts, ts ++ [{| coro := task; status := Created |}]) w).

(** [WorkerAgent._handle_task_request].  Nothing in the body of
    [async with self._resource_semaphore] suspends, so a call that finds a
    free slot runs to its [return] in one piece; one that finds none waits
    and has changed nothing. *)
Definition _handle_task_request (task : TaskRequest) (w : WorkerAgent)
  : admission * WorkerAgent :=
  match _check_resources (required_resources task) w with
  | (Raise e, w1) => (Failed e, w1)
  | (Ok false, w1) => (Replied {["error" := "insufficient_resources"]}, w1)
  | (Ok true, w1) =>
      match _resource_semaphore w1 with
      | O => (WaitsForSlot, w1)
      | S n =>
          let w2 := set_semaphore n w1 in
          let '(h, w3) := create_task task w2 in
          let w4 := set_registry (insert (task_id task) h) w3 in
          let w5 := set_semaphore (S (_resource_semaphore w4)) w4 in
          (Replied (<["task_id" := task_id task]> {["status" := "queued"]}), w5)
      end
  end.

(** ** Reporting *)

(** [K8sWorkerAgent._report_to_orchestrator], first statement: the result
    gets one more artifact before it is passed on. *)
Definition with_k8s_artifact (k : option (string * string)) (r : TaskResult) : TaskResult :=
  match k with
  | None => r
  | Some (node_name, pod_name) =>
      {| result_task_id := result_task_id r;
         success := success r;
         metrics := metrics r;
         artifacts := artifacts r ++
           ["k8s://" +:+ node_name +:+ "/" +:+ pod_name +:+ "/tasks/" +:+ result_task_id r] |}
  end.

(** [_report_to_orchestrator].  The base method does nothing that can
    fail; the hand-over is recorded in [reported]. *)
Definition _report_to_orchestrator (r : TaskResult) : M unit :=
  w <- get;;
  modify (add_reported (with_k8s_artifact (k8s w) r)).

(** ** Execution *)

(** What the awaited [_run_task_impl] hands back to [_execute_task] when
    the task is resumed inside [async with asyncio.timeout(...)]: the
    metrics it returned or the exception that leaves the [async with].
    Expiry of the deadline is [Threw TimeoutError]; a cancellation from
    outside is [Threw CancelledError]. *)
Inductive outcome :=
| Returned (m : gmap string float)
| Threw (e : exn).

(** Lines 99-100: the load is raised inside the [try]. *)
Definition track_resources (task : TaskRequest) : M unit :=
  load_iadd "cpu" (required_resources task);;
  load_iadd "mem_gb" (required_resources task).

(** Lines 120-122: the [finally] block. *)
Definition release_resources (task : TaskRequest) : M unit :=
  load_isub "cpu" (required_resources task);;
  load_isub "mem_gb" (required_resources task);;
  modify (set_registry (delete (task_id task))).

(** Lines 104-113 from the point where the body hands back [o]. *)
Definition timed_block (task : TaskRequest) (o : outcome) : M unit :=
  match o with
  | Returned m =>
      _report_to_orchestrator
        {| result_task_id := task_id task; success := true;
           metrics := m; artifacts := [] |}
  | Threw e => raise e
  end.

Section Executor.

(** How [metrics: Dict[str, float]] reads a [str]: pydantic coerces the
    value to the declared type and rejects the ones it cannot read.  The
    library is not part of the repository, so its reading is a
    parameter. *)
Variable float_of_str : string → option float.

(** [TaskResult(task_id=task_id, success=False, metrics={"error": reason})]
    with [reason : str]. *)
Definition TaskResult_error (tid : TaskID) (reason : string) : M TaskResult :=
  match float_of_str reason with
  | Some x =>
      ret {| result_task_id := tid; success := false;
             metrics := {["error" := x]}; artifacts := [] |}
  | None => raise (ValidationError "metrics")
  end.

(** [WorkerAgent._handle_task_failure]. *)
Definition _handle_task_failure (tid : TaskID) (reason : string) : M unit :=
  modify (add_logged ("Task " +:+ tid +:+ " failed: " +:+ reason));;
  r <- TaskResult_error tid reason;;
  _report_to_orchestrator r.

(** The two [except] clauses of [_execute_task], tried in order. *)
Definition except_clauses (task : TaskRequest) (e : exn) : M unit :=
  match e with
  | TimeoutError => _handle_task_failure (task_id task) "timeout"
  | _ =>
      if is_Exception e then _handle_task_failure (task_id task) (str e)
      else raise e
  end.

(** [WorkerAgent._execute_task], run without interruption on a body that
    hands back [o]. *)
Definition _execute_task (task : TaskRequest) (o : outcome) : M unit :=
  try_finally
    (try_except
       (track_resources task;; timed_block task o)
       (except_clauses task))
    (release_resources task).

(** The same coroutine cut at [await self._run_task_impl(...)]:
    [after_body] is what runs once the body hands back [o], [abort] what
    runs when the [try] fails before the body is reached. *)
Definition after_body (task : TaskRequest) (o : outcome) : M unit :=
  try_finally
    (try_except (timed_block task o) (except_clauses task))
    (release_resources task).

Definition abort (task : TaskRequest) (e : exn) : M unit :=
  try_finally (except_clauses task e) (release_resources task).

Definition set_status (h : nat) (s : task_status) (w : WorkerAgent) : WorkerAgent :=
  set_loop_tasks (alter (λ t, {| coro := coro t; status := s |}) h) w.

(** The loop runs a created task up to its first suspension. *)
Definition first_step (h : nat) (w : WorkerAgent) : WorkerAgent :=
  match loop_tasks w !! h with
  | Some {| coro := task; status := Created |} =>
      match track_resources task w with
      | (Ok _, w1) => set_status h Awaiting w1
      | (Raise e, w1) => let '(r, w2) := abort task e w1 in set_status h (Done r) w2
      end
  | _ => w
  end.

(** The loop resumes a task that waits for its body. *)
Definition wake (h : nat) (o : outcome) (w : WorkerAgent) : WorkerAgent :=
  match loop_tasks w !! h with
  | Some {| coro := task; status := Awaiting |} =>
      let '(r, w1) := after_body task o w in set_status h (Done r) w1
  | _ => w
  end.

(** [task.cancel()] followed by the loop's next step of that task.  A
    task that has not run yet is thrown into before its first statement,
    so none of its code runs; a suspended one receives [CancelledError]
    at its [await]; a finished one is left alone. *)
Definition cancel (h : nat) (w : WorkerAgent) : WorkerAgent :=
  match loop_tasks w !! h with
  | Some {| coro := task; status := Created |} =>
      set_status h (Done (Raise CancelledError)) w
  | Some {| coro := task; status := Awaiting |} =>
      wake h (Threw CancelledError) w
  | _ => w
  end.

(** [WorkerAgent.shutdown]: every handle in the registry is cancelled,
    then [asyncio.gather] waits for all of them.  [super().shutdown()]
    belongs to the base class and is taken to leave the fields kept here
    alone; the bodies are taken to let the cancellation through, as the
    one in the source does.  The cancelled tasks are resumed in the order
    in which the registry is enumerated, one after the other and with
    nothing else running in between.  The registry is a [gmap], so that
    order is by key where Python's dict goes by insertion: the order in
    which the ledger's subtractions round is the model's, not the
    program's. *)
Definition shutdown (w : WorkerAgent) : WorkerAgent :=
  foldl (λ w' h, cancel h w') w (map_to_list (_task_registry w)).*2.

(** What can happen on the loop, one piece at a time. *)
Inductive event :=
| Request (task : TaskRequest)
| FirstStep (h : nat)
| Wake (h : nat) (o : outcome)
| Cancel (h : nat)
| Shutdown.

Definition step (w : WorkerAgent) (ev : event) : WorkerAgent :=
  match ev with
  | Request task => (_handle_task_request task w).2
  | FirstStep h => first_step h w
  | Wake h o => wake h o w
  | Cancel h => cancel h w
  | Shutdown => shutdown w
  end.

Definition run (evs : list event) (w : WorkerAgent) : WorkerAgent :=
  foldl step w evs.

End Executor.

(** [WorkerAgent.get_metrics]; [qsize] is [self._message_queue.qsize()]. *)
Definition get_metrics (qsize : nat) (w : WorkerAgent) : result WorkerMetrics :=
  match _current_load w !! "cpu", _current_load w !! "mem_gb" with
  | Some c, Some m =>
      Ok {| cpu_usage := c; mem_usage_gb := m;
            active_tasks := size (_task_registry w); queue_size := qsize |}
  | None, _ => Raise (KeyError "cpu")
  | _, None => Raise (KeyError "mem_gb")
  end.

(** ** Notions used by the statements *)

(** The reason string that the [except] clauses pass to
    [_handle_task_failure]. *)
Definition failure_reason (e : exn) : string :=
  match e with
  | TimeoutError => "timeout"
  | _ => str e
  end.

(** How many [TaskResult]s one resumption of [_execute_task] builds, given
    how [metrics] reads a [str]. *)
Definition results_built (float_of_str : string → option float) (o : outcome) : nat :=
  match o with
  | Returned _ => 1
  | Threw e =>
      if is_Exception e
      then match float_of_str (failure_reason e) with Some _ => 1 | None => 0 end
      else 0
  end.

(** The executions that are under way: started and not yet finished. *)
Definition in_flight (w : WorkerAgent) : list TaskRequest :=
  omap (λ t, match status t with Awaiting => Some (coro t) | _ => None end) (loop_tasks w).

(** The workers that a trace of events produces from a new one. *)
Definition reachable (float_of_str : string → option float) (w : WorkerAgent) : Prop :=
  ∃ cfg k evs, w = run float_of_str evs (WorkerAgent_init cfg k).

(** The ledger carries the two kinds it was created with. *)
Definition ledger_ok (w : WorkerAgent) : Prop :=
  is_Some (_current_load w !! "cpu") ∧ is_Some (_current_load w !! "mem_gb").

(** What holds of every reachable worker. *)
Definition well_formed (w : WorkerAgent) : Prop :=
  ledger_ok w ∧
  _resource_semaphore w = max_concurrent_tasks (worker_config w) ∧
  ∀ h t, loop_tasks w !! h = Some t →
    is_Some (required_resources (coro t) !! "cpu") ∧
    is_Some (required_resources (coro t) !! "mem_gb").

(** Two workers that differ at most in what was reported and logged. *)
Definition same_ledger (w w1 : WorkerAgent) : Prop :=
  worker_config w1 = worker_config w ∧ k8s w1 = k8s w ∧
  _task_registry w1 = _task_registry w ∧
  _resource_semaphore w1 = _resource_semaphore w ∧
  _current_load w1 = _current_load w ∧
  loop_tasks w1 = loop_tasks w.

(** Two workers with the same configuration, semaphore and loop tasks,
    the second with a ledger at least as well formed as the first. *)
Definition same_setup (w w1 : WorkerAgent) : Prop :=
  worker_config w1 = worker_config w ∧ k8s w1 = k8s w ∧
  _resource_semaphore w1 = _resource_semaphore w ∧
  loop_tasks w1 = loop_tasks w ∧
  (ledger_ok w → ledger_ok w1).

(** The worker after the [finally] block of a task with amounts [rc] and
    [rm], on a ledger that holds [lc] and [lm]. *)
Definition released (task : TaskRequest) (lc lm rc rm : float) (w : WorkerAgent) : WorkerAgent :=
  set_registry (delete (task_id task))
    (set_load (insert "mem_gb" (PrimFloat.sub lm rm))
       (set_load (insert "cpu" (PrimFloat.sub lc rc)) w)).

(** Every handle in the registry belongs to an execution that has started
    and is registered under its own task id. *)
Definition registry_tracks_started (w : WorkerAgent) : Prop :=
  ∀ tid h, _task_registry w !! tid = Some h →
    ∃ task, loop_tasks w !! h = Some {| coro := task; status := Awaiting |} ∧
            task_id task = tid.

(** Every execution that is under way is the one its task id is
    registered for. *)
Definition started_are_registered (w : WorkerAgent) : Prop :=
  ∀ h task, loop_tasks w !! h = Some {| coro := task; status := Awaiting |} →
    _task_registry w !! task_id task = Some h.

(** The admission rule in the words of the specification: every kind of
    [required] is compared with its limit, and a kind without a limit does
    not constrain.  A kind the ledger has no entry for counts as unused. *)
Definition checkAndAdmit_spec (load limits required : ResourceProfile) : bool :=
  forallb
    (λ '(kind, amount),
       match limits !! kind with
       | None => true
       | Some limit =>
           PrimFloat.leb (PrimFloat.add (default 0%float (load !! kind)) amount) limit
       end)
    (map_to_list required).

(** The rejection rule in the words of the specification: some kind of
    [required] asks for more than what is left of it, the limit less the
    load.  A kind without a limit does not constrain, and a kind the
    ledger has no entry for counts as unused. *)
Definition exceeds_remaining_capacity (load limits required : ResourceProfile) : bool :=
  existsb
    (λ '(kind, amount),
       match limits !! kind with
       | None => false
       | Some limit =>
           PrimFloat.ltb (PrimFloat.sub limit (default 0%float (load !! kind))) amount
       end)
    (map_to_list required).

(** ** Sample workers and requests *)

(** A reading of [str] values that knows the special names only.  It
    stands for the coercion when the model is run on failure descriptions
    that are words and not numerals. *)
Definition float_of_name (s : string) : option float :=
  if String.eqb s "inf" || String.eqb s "infinity" then Some PrimFloat.infinity
  else if String.eqb s "-inf" || String.eqb s "-infinity" then Some PrimFloat.neg_infinity
  else if String.eqb s "nan" then Some PrimFloat.nan
  else None.

Definition profile (cpu mem_gb : float) : ResourceProfile :=
  <["cpu" := cpu]> (<["mem_gb" := mem_gb]> ∅).

Definition request (tid : TaskID) (required : ResourceProfile) : TaskRequest :=
  {| task_id := tid; payload := ""; priority := 1; deadline := None;
     required_resources := required |}.

Definition fresh_worker : WorkerAgent := WorkerAgent_init WorkerConfig_default None.

(** The scenario of the specification: two requests of
    [{cpu: 1.2, mem_gb: 4}] against [{cpu: 2.0, mem_gb: 8}]. *)
Definition task_a : TaskRequest := request "a" (profile 1.2 4).
Definition task_b : TaskRequest := request "b" (profile 1.2 4).

(** [task_a] admitted and started on a fresh worker. *)
Definition worker_running_a : WorkerAgent :=
  run float_of_name [Request task_a; FirstStep 0] fresh_worker.

(** Six small requests, one more than [max_concurrent_tasks], each
    started as soon as it is admitted. *)
Definition small (tid : TaskID) : TaskRequest := request tid (profile 0.1 0.1).
Definition six_small_started : list event :=
  [Request (small "t0"); FirstStep 0; Request (small "t1"); FirstStep 1;
   Request (small "t2"); FirstStep 2; Request (small "t3"); FirstStep 3;
   Request (small "t4"); FirstStep 4; Request (small "t5"); FirstStep 5].

(** A worker whose limits also list a kind the ledger does not track. *)
Definition gpu_limits : ResourceProfile := <["gpu" := 1.0%float]> default_resource_limits.
Definition gpu_worker : WorkerAgent :=
  WorkerAgent_init
    {| max_concurrent_tasks := 5; task_timeout := 300;
       resource_limits := gpu_limits;
       task_queue_endpoint := "http://task-queue:8000" |} None.
Definition gpu_required : ResourceProfile := <["gpu" := 4.0%float]> default_required_resources.

(** Rounding: a task of 0.1 cpu is under way when one of 0.2 cpu comes
    and goes. *)
Definition tenth : TaskRequest := request "tenth" (profile 0.1 1).
Definition fifth : TaskRequest := request "fifth" (profile 0.2 1).
Definition worker_running_tenth : WorkerAgent :=
  run float_of_name [Request tenth; FirstStep 0] fresh_worker.

(** Rounding at the limit: with 1 GB in use, a request for one binary64
    step more than the 7 GB that are left. *)
Definition heavy : TaskRequest := request "heavy" (profile 0.5 7.000000000000001).


(** ** The rest of the worker *)

(** [os.getenv(name, fallback)]. *)
Definition getenv (env : gmap string string) (name fallback : string) : string :=
  default fallback (env !! name).

(** [K8sWorkerAgent.__init__]: the pod and node names come from the
    environment and fall back on "local". *)
Definition K8sWorkerAgent_init (cfg : WorkerConfig) (env : gmap string string) : WorkerAgent :=
  WorkerAgent_init cfg
    (Some (getenv env "K8S_NODE_NAME" "local", getenv env "K8S_POD_NAME" "local")).

(** What the [_run_task_impl] of the source hands back after its sleep. *)
Definition _run_task_impl : outcome := Returned {["duration" := 1.0%float]}.

(** An [AgentMessage], as far as [_process_message] reads it.  The class
    belongs to the base module; [payload_type] and [payload] are the
    fields used here. *)
Record AgentMessage (P : Type) := {
  payload_type : string;
  message_payload : P
}.
Arguments payload_type {P} _.
Arguments message_payload {P} _.

Section Messages.

(** The request built from [message.payload]: pydantic builds it from
    the payload dict or raises; its reading of the dict is a parameter. *)
Variable P : Type.
Variable TaskRequest_of_payload : P → result TaskRequest.

(** [WorkerAgent._process_message]. *)
Definition _process_message (message : AgentMessage P) (w : WorkerAgent)
  : admission * WorkerAgent :=
  if String.eqb (payload_type message) "TaskRequest" then
    match TaskRequest_of_payload (message_payload message) with
    | Ok task => _handle_task_request task w
    | Raise e => (Failed e, w)
    end
  else (Replied {["status" := "unhandled_message_type"]}, w).

End Messages.

(** An entry of the class-level registry of agents: a worker with the
    size of its message queue, or an agent of another class. *)
Inductive agent :=
| AWorker (w : WorkerAgent) (qsize : nat)
| OtherAgent.

(** [WorkerAgent.get_worker_metrics] over the registry [cls._registry]:
    the entries are visited in turn and the first [get_metrics] that
    raises ends the comprehension. *)
Definition get_worker_metrics (registry : gmap string agent)
  : result (gmap string WorkerMetrics) :=
  foldr
    (λ '(aid, a) rest,
       match a with
       | OtherAgent => rest
       | AWorker w qsize =>
           match get_metrics qsize w with
           | Raise e => Raise e
           | Ok m =>
               match rest with
               | Raise e => Raise e
               | Ok ms => Ok (<[aid := m]> ms)
               end
           end
       end)
    (Ok ∅) (map_to_list registry).

(** ** Further notions *)

(** Whether the task with handle [h] has started and not finished. *)
Definition is_awaiting (w : WorkerAgent) (h : nat) : bool :=
  match loop_tasks w !! h with
  | Some {| coro := _; status := Awaiting |} => true
  | _ => false
  end.

(** Every registry entry names a task of the loop whose request carries
    the id it is registered under. *)
Definition registry_consistent (w : WorkerAgent) : Prop :=
  ∀ tid h, _task_registry w !! tid = Some h →
    ∃ t, loop_tasks w !! h = Some t ∧ task_id (coro t) = tid.

(** The metrics an agent of the registry contributes. *)
Definition metrics_of (a : agent) : option WorkerMetrics :=
  match a with
  | OtherAgent => None
  | AWorker w qsize =>
      match get_metrics qsize w with
      | Ok m => Some m
      | Raise _ => None
      end
  end.

(** The cpu entry of the ledger is not a number. *)
Definition cpu_load_is_nan (w : WorkerAgent) : Prop :=
  _current_load w !! "cpu" = Some PrimFloat.nan.

(** A request for a negative infinity of cpu. *)
Definition task_neg_inf : TaskRequest :=
  request "n" (profile PrimFloat.neg_infinity 1).

(** The worker after that request was admitted, started and finished. *)
Definition worker_nan_load : WorkerAgent :=
  run float_of_name [Request task_neg_inf; FirstStep 0; Wake 0 _run_task_impl]
    fresh_worker.

(** A second request under the id of [task_a]. *)
Definition task_a_again : TaskRequest := request "a" (profile 0.1 0.1).

(** ** Basic facts *)

Lemma getitem_Some (d : ResourceProfile) k x w :
  d !! k = Some x → getitem d k w = (Ok x, w).
Proof. intros H. unfold getitem. rewrite H. reflexivity. Qed.

Lemma getitem_None (d : ResourceProfile) k w :
  d !! k = None → getitem d k w = (Raise (KeyError k), w).
Proof. intros H. unfold getitem. rewrite H. reflexivity. Qed.

Lemma check_resources_value w required lc rc limc lm rm limm :
  _current_load w !! "cpu" = Some lc →
  required !! "cpu" = Some rc →
  resource_limits (worker_config w) !! "cpu" = Some limc →
  _current_load w !! "mem_gb" = Some lm →
  required !! "mem_gb" = Some rm →
  resource_limits (worker_config w) !! "mem_gb" = Some limm →
  _check_resources required w =
    (Ok (PrimFloat.leb (PrimFloat.add lc rc) limc && PrimFloat.leb (PrimFloat.add lm rm) limm), w).
Proof.
  intros H1 H2 H3 H4 H5 H6. unfold _check_resources, bind, get.
  rewrite (getitem_Some _ _ _ _ H1), (getitem_Some _ _ _ _ H2), (getitem_Some _ _ _ _ H3).
  destruct (PrimFloat.leb (PrimFloat.add lc rc) limc); simpl; [|reflexivity].
  rewrite (getitem_Some _ _ _ _ H4), (getitem_Some _ _ _ _ H5), (getitem_Some _ _ _ _ H6).
  reflexivity.
Qed.

(** The check never changes the worker. *)
Lemma check_resources_pure required w : (_check_resources required w).2 = w.
Proof.
  unfold _check_resources, bind, get, getitem, ret, raise.
  repeat (case_match; simplify_eq/=); reflexivity.
Qed.

(** A check that answers [True] has read both kinds of the request. *)
Lemma check_resources_true required w w1 :
  _check_resources required w = (Ok true, w1) →
  is_Some (required !! "cpu") ∧ is_Some (required !! "mem_gb").
Proof.
  unfold _check_resources, bind, get, getitem, ret, raise.
  intros H. repeat (case_match; simplify_eq/=); eauto.
Qed.

(** ** Admission *)

(** An admission leaves the semaphore as it found it: the slot taken on
    entry of [async with] is given back on exit, before any execution has
    run. *)
Lemma handle_task_request_semaphore task w :
  _resource_semaphore (_handle_task_request task w).2 = _resource_semaphore w.
Proof.
  unfold _handle_task_request.
  pose proof (check_resources_pure (required_resources task) w) as Hp.
  destruct (_check_resources (required_resources task) w) as [[[|]|e] w1];
    simpl in Hp; subst w1; try reflexivity.
  destruct (_resource_semaphore w) as [|n] eqn:Hs; simpl; auto.
Qed.

(** C7, as stated, fails.  With 1 GB of the 8 in use, 7 GB are left
    (the difference is exact), and [heavy] asks for 7 + 2^-50 GB, which
    is more.  The check adds before it compares, the sum rounds to 8,
    and the request is queued and registered. *)
Lemma request_beyond_remaining_capacity_queued :
  _current_load worker_running_tenth !! "mem_gb" = Some 1%float ∧
  resource_limits (worker_config worker_running_tenth) !! "mem_gb" = Some 8%float ∧
  required_resources heavy !! "mem_gb" = Some 7.000000000000001%float ∧
  FloatOps.Prim2SF (PrimFloat.sub 8 1) = SpecFloat.S754_finite false 7881299347898368 (-50) ∧
  FloatOps.Prim2SF 7.000000000000001 = SpecFloat.S754_finite false 7881299347898369 (-50) ∧
  exceeds_remaining_capacity (_current_load worker_running_tenth)
    (resource_limits (worker_config worker_running_tenth))
    (required_resources heavy) = true ∧
  PrimFloat.add 1 7.000000000000001 = 8%float ∧
  (_handle_task_request heavy worker_running_tenth).1
    = Replied (<["task_id" := "heavy"]> {["status" := "queued"]}) ∧
  _task_registry (_handle_task_request heavy worker_running_tenth).2 !! "heavy" = Some 1 ∧
  loop_tasks (_handle_task_request heavy worker_running_tenth).2 !! 1
    = Some {| coro := heavy; status := Created |}.
Proof. repeat split; vm_compute; reflexivity. Qed.

(** C7, amended.  For a request that names both kinds, on a worker whose
    ledger and limits carry both: when the binary64 sum of the ledger's
    entry and the required amount is not [<=] the limit, for "cpu" or for
    "mem_gb", the reply is [{"error": "insufficient_resources"}] and the
    worker (load, registry, loop tasks and all) is unchanged. *)
Theorem reject_insufficient_resources task w lc rc limc lm rm limm :
  _current_load w !! "cpu" = Some lc →
  required_resources task !! "cpu" = Some rc →
  resource_limits (worker_config w) !! "cpu" = Some limc →
  _current_load w !! "mem_gb" = Some lm →
  required_resources task !! "mem_gb" = Some rm →
  resource_limits (worker_config w) !! "mem_gb" = Some limm →
  PrimFloat.leb (PrimFloat.add lc rc) limc = false ∨
  PrimFloat.leb (PrimFloat.add lm rm) limm = false →
  _handle_task_request task w = (Replied {["error" := "insufficient_resources"]}, w).
Proof.
  intros H1 H2 H3 H4 H5 H6 Hex. unfold _handle_task_request.
  rewrite (check_resources_value _ _ _ _ _ _ _ _ H1 H2 H3 H4 H5 H6).
  destruct Hex as [-> | ->]; [reflexivity|].
  rewrite andb_false_r. reflexivity.
Qed.

Lemma reject_insufficient_resources_witness :
  _handle_task_request task_b (first_step float_of_name 0 (_handle_task_request task_a fresh_worker).2)
  = (Replied {["error" := "insufficient_resources"]},
     first_step float_of_name 0 (_handle_task_request task_a fresh_worker).2).
Proof.
  apply (reject_insufficient_resources task_b _ 1.2 1.2 2.0 4 4 8);
    try (vm_compute; reflexivity).
  left. vm_compute. reflexivity.
Defined.

(** A limits map without "cpu" ends the check with [KeyError]. *)
Lemma check_resources_needs_cpu_limit w required lc rc :
  _current_load w !! "cpu" = Some lc →
  required !! "cpu" = Some rc →
  resource_limits (worker_config w) !! "cpu" = None →
  _check_resources required w = (Raise (KeyError "cpu"), w).
Proof.
  intros H1 H2 H3. unfold _check_resources, bind, get.
  rewrite (getitem_Some _ _ _ _ H1), (getitem_Some _ _ _ _ H2), (getitem_None _ _ _ H3).
  reflexivity.
Qed.

(** C8, as stated, fails: a kind of the required profile that has a limit
    is not compared with it.  A request for 4 gpu is admitted by a worker
    whose limits allow 1, where the rule of the specification denies. *)
Lemma check_resources_skips_other_kinds :
  gpu_required !! "gpu" = Some 4.0%float ∧
  resource_limits (worker_config gpu_worker) !! "gpu" = Some 1.0%float ∧
  _check_resources gpu_required gpu_worker = (Ok true, gpu_worker) ∧
  checkAndAdmit_spec (_current_load gpu_worker)
    (resource_limits (worker_config gpu_worker)) gpu_required = false.
Proof. repeat split; vm_compute; reflexivity. Qed.

(** C8, amended.  The check compares the kinds "cpu" and "mem_gb" with
    their limits and reads no other kind.  When the request, the ledger
    and the limits carry both, its answer is whether the binary64 sum of
    load and required amount is [<=] the limit for "cpu" and for
    "mem_gb", and the worker is unchanged.  And whenever two required
    profiles, two ledgers and two limits maps agree on these two kinds,
    the check gives the same answer: no other kind of the profile is
    compared with a limit or can cause a denial, whether the limits list
    it or not. *)
Theorem check_resources_reads_cpu_and_mem_gb w required :
  (∀ lc rc limc lm rm limm,
     _current_load w !! "cpu" = Some lc →
     required !! "cpu" = Some rc →
     resource_limits (worker_config w) !! "cpu" = Some limc →
     _current_load w !! "mem_gb" = Some lm →
     required !! "mem_gb" = Some rm →
     resource_limits (worker_config w) !! "mem_gb" = Some limm →
     _check_resources required w =
       (Ok (PrimFloat.leb (PrimFloat.add lc rc) limc &&
            PrimFloat.leb (PrimFloat.add lm rm) limm), w)) ∧
  (∀ w' required',
     (∀ kind, kind = "cpu" ∨ kind = "mem_gb" →
        required !! kind = required' !! kind ∧
        _current_load w !! kind = _current_load w' !! kind ∧
        resource_limits (worker_config w) !! kind
          = resource_limits (worker_config w') !! kind) →
     (_check_resources required w).1 = (_check_resources required' w').1).
Proof.
  split; [intros; by apply check_resources_value|].
  intros w' required' H.
  destruct (H "cpu") as (Hrc & Hlc & Hlimc); [by left|].
  destruct (H "mem_gb") as (Hrm & Hlm & Hlimm); [by right|].
  unfold _check_resources, bind, get, getitem, ret, raise.
  rewrite Hrc, Hlc, Hlimc, Hrm, Hlm, Hlimm.
  repeat (case_match; simplify_eq/=); reflexivity.
Qed.

Lemma check_resources_reads_cpu_and_mem_gb_witness :
  _check_resources gpu_required gpu_worker = (Ok true, gpu_worker) ∧
  _check_resources (profile 1.2 4) worker_running_a = (Ok false, worker_running_a) ∧
  (_check_resources gpu_required gpu_worker).1
  = (_check_resources default_required_resources fresh_worker).1.
Proof.
  destruct (check_resources_reads_cpu_and_mem_gb gpu_worker gpu_required) as [Hv Hsame].
  destruct (check_resources_reads_cpu_and_mem_gb worker_running_a (profile 1.2 4))
    as [Hv' _].
  split; [|split].
  - refine (eq_trans (Hv 0%float 0.5%float 2%float 0%float 1%float 8%float _ _ _ _ _ _) _); vm_compute; reflexivity.
  - refine (eq_trans (Hv' 1.2%float 1.2%float 2%float 4%float 4%float 8%float _ _ _ _ _ _) _); vm_compute; reflexivity.
  - apply (Hsame fresh_worker default_required_resources).
    intros kind [-> | ->]; vm_compute; repeat split; reflexivity.
Defined.

(** C9, as stated, fails: a profile without "mem_gb" whose cpu amount
    does not fit is answered with [False], and the request is rejected in
    the ordinary way. *)
Lemma missing_mem_gb_rejected_without_KeyError :
  (request "c" {["cpu" := 100.0%float]}).(required_resources) !! "mem_gb" = None ∧
  _check_resources {["cpu" := 100.0%float]} fresh_worker = (Ok false, fresh_worker) ∧
  _handle_task_request (request "c" {["cpu" := 100.0%float]}) fresh_worker
  = (Replied {["error" := "insufficient_resources"]}, fresh_worker).
Proof. split; [|split]; vm_compute; reflexivity. Qed.

(** C9, amended.  On a worker whose ledger and limits carry both kinds:
    a required profile without "cpu" makes the admission raise
    [KeyError('cpu')]; one with "cpu" and without "mem_gb" makes it raise
    [KeyError('mem_gb')] when the cpu amount fits and is rejected with
    [insufficient_resources] when it does not.  The worker is unchanged in
    every case. *)
Theorem missing_kind_admission task w lc limc lm :
  _current_load w !! "cpu" = Some lc →
  _current_load w !! "mem_gb" = Some lm →
  resource_limits (worker_config w) !! "cpu" = Some limc →
  required_resources task !! "cpu" = None ∨ required_resources task !! "mem_gb" = None →
  _handle_task_request task w =
    (match required_resources task !! "cpu" with
     | None => Failed (KeyError "cpu")
     | Some rc =>
         if PrimFloat.leb (PrimFloat.add lc rc) limc
         then Failed (KeyError "mem_gb")
         else Replied {["error" := "insufficient_resources"]}
     end, w).
Proof.
  intros H1 H2 H3 Hmiss.
  unfold _handle_task_request, _check_resources, bind, get.
  rewrite (getitem_Some _ _ _ _ H1).
  destruct (required_resources task !! "cpu") as [rc|] eqn:Hc.
  - destruct Hmiss as [?|Hm]; [discriminate|].
    rewrite (getitem_Some _ _ _ _ Hc), (getitem_Some _ _ _ _ H3).
    destruct (PrimFloat.leb (PrimFloat.add lc rc) limc); simpl; [|reflexivity].
    rewrite (getitem_Some _ _ _ _ H2), (getitem_None _ _ _ Hm). reflexivity.
  - rewrite (getitem_None _ _ _ Hc). reflexivity.
Qed.

Lemma missing_kind_admission_witness :
  _handle_task_request (request "d" {["mem_gb" := 1.0%float]}) fresh_worker
    = (Failed (KeyError "cpu"), fresh_worker) ∧
  _handle_task_request (request "e" {["cpu" := 0.5%float]}) fresh_worker
    = (Failed (KeyError "mem_gb"), fresh_worker).
Proof.
  split.
  - refine (eq_trans
      (missing_kind_admission (request "d" {["mem_gb" := 1.0%float]}) fresh_worker 0 2 0
         _ _ _ _) _).
    + vm_compute; reflexivity.
    + vm_compute; reflexivity.
    + vm_compute; reflexivity.
    + left. vm_compute; reflexivity.
    + vm_compute; reflexivity.
  - refine (eq_trans
      (missing_kind_admission (request "e" {["cpu" := 0.5%float]}) fresh_worker 0 2 0
         _ _ _ _) _).
    + vm_compute; reflexivity.
    + vm_compute; reflexivity.
    + vm_compute; reflexivity.
    + right. vm_compute; reflexivity.
    + vm_compute; reflexivity.
Defined.

(** ** One resumption of an execution *)

Lemma try_finally_state {A} (body : M A) fin w :
  (try_finally body fin w).2 = (fin (body w).2).2.
Proof. unfold try_finally. destruct (body w) as [r w1]; simpl. by destruct (fin w1) as [[|] ?]. Qed.

Lemma try_finally_result {A} (body : M A) fin w :
  (try_finally body fin w).1 =
    match (fin (body w).2).1 with
    | Ok _ => (body w).1
    | Raise e => Raise e
    end.
Proof. unfold try_finally. destruct (body w) as [r w1]; simpl. by destruct (fin w1) as [[|] ?]. Qed.

Lemma release_resources_ok task w lc lm rc rm :
  _current_load w !! "cpu" = Some lc →
  _current_load w !! "mem_gb" = Some lm →
  required_resources task !! "cpu" = Some rc →
  required_resources task !! "mem_gb" = Some rm →
  release_resources task w = (Ok tt, released task lc lm rc rm w).
Proof.
  intros H1 H2 H3 H4. unfold release_resources, load_isub, bind, get.
  rewrite (getitem_Some _ _ _ _ H1), (getitem_Some _ _ _ _ H3). simpl.
  rewrite (getitem_Some _ _ lm); [|by rewrite lookup_insert_ne].
  rewrite (getitem_Some _ _ _ _ H4). reflexivity.
Qed.

Lemma track_resources_ok task w lc lm rc rm :
  _current_load w !! "cpu" = Some lc →
  _current_load w !! "mem_gb" = Some lm →
  required_resources task !! "cpu" = Some rc →
  required_resources task !! "mem_gb" = Some rm →
  track_resources task w =
    (Ok tt, set_load (insert "mem_gb" (PrimFloat.add lm rm))
              (set_load (insert "cpu" (PrimFloat.add lc rc)) w)).
Proof.
  intros H1 H2 H3 H4. unfold track_resources, load_iadd, bind, get.
  rewrite (getitem_Some _ _ _ _ H1), (getitem_Some _ _ _ _ H3). simpl.
  rewrite (getitem_Some _ _ lm); [|by rewrite lookup_insert_ne].
  rewrite (getitem_Some _ _ _ _ H4). reflexivity.
Qed.

Lemma same_ledger_refl w : same_ledger w w.
Proof. by repeat split. Qed.

(** The timed block and the [except] clauses touch nothing but the
    reporter and the log. *)
Lemma handle_task_failure_frame f tid reason w :
  same_ledger w (_handle_task_failure f tid reason w).2.
Proof.
  unfold _handle_task_failure, TaskResult_error, _report_to_orchestrator.
  unfold bind, modify, get, ret, raise. simpl.
  destruct (f reason); simpl; by repeat split.
Qed.

Lemma guarded_block_frame f task o w :
  same_ledger w (try_except (timed_block task o) (except_clauses f task) w).2.
Proof.
  unfold try_except, timed_block.
  destruct o as [m|e].
  - unfold _report_to_orchestrator, bind, get, modify. simpl. by repeat split.
  - unfold raise. unfold except_clauses.
    destruct e; simpl; try apply handle_task_failure_frame. apply same_ledger_refl.
Qed.

Lemma except_clauses_reason f task e :
  is_Exception e = true →
  except_clauses f task e = _handle_task_failure f (task_id task) (failure_reason e).
Proof. by destruct e. Qed.

Lemma handle_task_failure_reported f tid reason w :
  reported (_handle_task_failure f tid reason w).2 =
    match f reason with
    | Some x =>
        reported w ++
        [with_k8s_artifact (k8s w)
           {| result_task_id := tid; success := false;
              metrics := {["error" := x]}; artifacts := [] |}]
    | None => reported w
    end.
Proof.
  unfold _handle_task_failure, TaskResult_error, _report_to_orchestrator.
  unfold bind, modify, get, ret, raise. simpl.
  destruct (f reason); reflexivity.
Qed.

Lemma handle_task_failure_logged f tid reason w :
  logged (_handle_task_failure f tid reason w).2 =
    logged w ++ ["Task " +:+ tid +:+ " failed: " +:+ reason].
Proof.
  unfold _handle_task_failure, TaskResult_error, _report_to_orchestrator.
  unfold bind, modify, get, ret, raise. simpl.
  destruct (f reason); reflexivity.
Qed.

Lemma handle_task_failure_result f tid reason w :
  (_handle_task_failure f tid reason w).1 =
    match f reason with
    | Some _ => Ok tt
    | None => Raise (ValidationError "metrics")
    end.
Proof.
  unfold _handle_task_failure, TaskResult_error, _report_to_orchestrator.
  unfold bind, modify, get, ret, raise. simpl.
  destruct (f reason); reflexivity.
Qed.

Lemma release_resources_observers task w :
  reported (release_resources task w).2 = reported w ∧
  logged (release_resources task w).2 = logged w ∧
  loop_tasks (release_resources task w).2 = loop_tasks w ∧
  _resource_semaphore (release_resources task w).2 = _resource_semaphore w ∧
  worker_config (release_resources task w).2 = worker_config w ∧
  k8s (release_resources task w).2 = k8s w.
Proof.
  unfold release_resources, load_isub. unfold bind, get, modify, getitem, ret, raise.
  repeat (case_match; simplify_eq/=); done.
Qed.

Lemma wake_awaiting f h o w task :
  loop_tasks w !! h = Some {| coro := task; status := Awaiting |} →
  wake f h o w =
    set_status h (Done (after_body f task o w).1) (after_body f task o w).2.
Proof. intros H. unfold wake. rewrite H. by destruct (after_body f task o w). Qed.

Lemma cancel_awaiting f h w task :
  loop_tasks w !! h = Some {| coro := task; status := Awaiting |} →
  cancel f h w = wake f h (Threw CancelledError) w.
Proof. intros H. unfold cancel. by rewrite H. Qed.

Lemma after_body_reported f task o w :
  reported (after_body f task o w).2 =
    reported (try_except (timed_block task o) (except_clauses f task) w).2.
Proof.
  unfold after_body. rewrite try_finally_state.
  apply release_resources_observers.
Qed.

Lemma after_body_logged f task o w :
  logged (after_body f task o w).2 =
    logged (try_except (timed_block task o) (except_clauses f task) w).2.
Proof.
  unfold after_body. rewrite try_finally_state.
  apply release_resources_observers.
Qed.

(** What one resumption does to the ledger, the registry and the task. *)
Lemma after_body_cleanup f task o w lc lm rc rm :
  _current_load w !! "cpu" = Some lc →
  _current_load w !! "mem_gb" = Some lm →
  required_resources task !! "cpu" = Some rc →
  required_resources task !! "mem_gb" = Some rm →
  _current_load (after_body f task o w).2 =
    <["mem_gb" := PrimFloat.sub lm rm]> (<["cpu" := PrimFloat.sub lc rc]> (_current_load w)) ∧
  _task_registry (after_body f task o w).2 = delete (task_id task) (_task_registry w) ∧
  loop_tasks (after_body f task o w).2 = loop_tasks w ∧
  (after_body f task o w).1 =
    (try_except (timed_block task o) (except_clauses f task) w).1.
Proof.
  intros H1 H2 H3 H4. unfold after_body.
  rewrite try_finally_state, try_finally_result.
  destruct (guarded_block_frame f task o w) as (_ & _ & Hreg & _ & Hload & Htasks).
  set (w1 := (try_except (timed_block task o) (except_clauses f task) w).2) in *.
  rewrite (release_resources_ok task w1 lc lm rc rm) by (by rewrite ?Hload).
  simpl. by rewrite Hreg, Hload, Htasks.
Qed.

Lemma set_status_lookup h s w task s0 :
  loop_tasks w !! h = Some {| coro := task; status := s0 |} →
  loop_tasks (set_status h s w) !! h = Some {| coro := task; status := s |}.
Proof.
  intros H. unfold set_status. simpl.
  rewrite list_lookup_alter_eq, H. reflexivity.
Qed.

(** [first_step] followed by [wake] is [_execute_task] cut in two. *)
Lemma execute_task_cut f task o w :
  _execute_task f task o w =
    match track_resources task w with
    | (Ok _, w1) => after_body f task o w1
    | (Raise e, w1) => abort f task e w1
    end.
Proof.
  unfold _execute_task, after_body, abort, try_finally, try_except, bind.
  destruct (track_resources task w) as [[[]|e] w1]; reflexivity.
Qed.

(** ** What every trace preserves *)

Lemma same_setup_refl w : same_setup w w.
Proof. unfold same_setup. tauto. Qed.

Lemma same_setup_trans w w1 w2 : same_setup w w1 → same_setup w1 w2 → same_setup w w2.
Proof.
  intros (A1 & A2 & A3 & A4 & A5) (B1 & B2 & B3 & B4 & B5).
  repeat split; try congruence; intros; apply B5, A5; assumption.
Qed.

Lemma same_ledger_setup w w1 : same_ledger w w1 → same_setup w w1.
Proof.
  intros (A1 & A2 & A3 & A4 & A5 & A6).
  split; [done|]. split; [done|]. split; [done|]. split; [done|].
  unfold ledger_ok. by rewrite A5.
Qed.

Lemma ledger_ok_insert k x w : ledger_ok w → ledger_ok (set_load (insert k x) w).
Proof.
  intros [Hc Hm]. split; simpl; rewrite lookup_insert; case_decide; eauto.
Qed.

Lemma load_iadd_setup k required w : same_setup w (load_iadd k required w).2.
Proof.
  unfold load_iadd, bind, get, getitem, modify, raise, ret.
  destruct (_current_load w !! k); simpl; [|apply same_setup_refl].
  destruct (required !! k); simpl; [|apply same_setup_refl].
  unfold same_setup; simpl. repeat (split; [done|]). apply ledger_ok_insert.
Qed.

Lemma load_isub_setup k required w : same_setup w (load_isub k required w).2.
Proof.
  unfold load_isub, bind, get, getitem, modify, raise, ret.
  destruct (_current_load w !! k); simpl; [|apply same_setup_refl].
  destruct (required !! k); simpl; [|apply same_setup_refl].
  unfold same_setup; simpl. repeat (split; [done|]). apply ledger_ok_insert.
Qed.

Lemma bind_setup {A B} (m : M A) (k : A → M B) w :
  same_setup w (m w).2 →
  (∀ a w1, same_setup w1 (k a w1).2) →
  same_setup w (bind m k w).2.
Proof.
  intros Hm Hk. unfold bind. destruct (m w) as [[a|e] w1]; simpl in *; [|done].
  eapply same_setup_trans; [exact Hm | apply Hk].
Qed.

Lemma track_resources_setup task w : same_setup w (track_resources task w).2.
Proof.
  unfold track_resources. apply bind_setup; [apply load_iadd_setup|].
  intros _ w1. apply load_iadd_setup.
Qed.

Lemma release_resources_setup task w : same_setup w (release_resources task w).2.
Proof.
  unfold release_resources. apply bind_setup; [apply load_isub_setup|].
  intros _ w1. apply bind_setup; [apply load_isub_setup|].
  intros _ w2. unfold modify, same_setup, ledger_ok; simpl. tauto.
Qed.

Lemma guarded_block_setup f task o w :
  same_setup w (try_except (timed_block task o) (except_clauses f task) w).2.
Proof. apply same_ledger_setup, guarded_block_frame. Qed.

Lemma except_clauses_setup f task e w : same_setup w (except_clauses f task e w).2.
Proof.
  apply same_ledger_setup. unfold except_clauses.
  destruct e; simpl; try apply handle_task_failure_frame. apply same_ledger_refl.
Qed.

Lemma after_body_setup f task o w : same_setup w (after_body f task o w).2.
Proof.
  unfold after_body. rewrite try_finally_state.
  eapply same_setup_trans; [apply guarded_block_setup | apply release_resources_setup].
Qed.

Lemma abort_setup f task e w : same_setup w (abort f task e w).2.
Proof.
  unfold abort. rewrite try_finally_state.
  eapply same_setup_trans; [apply except_clauses_setup | apply release_resources_setup].
Qed.

(** Changing the status of one task keeps every coroutine's request. *)
Lemma set_status_coro h s w h' t' :
  loop_tasks (set_status h s w) !! h' = Some t' →
  ∃ t, loop_tasks w !! h' = Some t ∧ coro t' = coro t.
Proof.
  unfold set_status; simpl. intros H.
  destruct (decide (h = h')) as [->|Hne].
  - rewrite list_lookup_alter_eq in H.
    destruct (loop_tasks w !! h') as [t|]; simplify_eq/=. eauto.
  - rewrite list_lookup_alter_ne in H by done. eauto.
Qed.

Lemma well_formed_set_status h s w w1 :
  well_formed w → same_setup w w1 → well_formed (set_status h s w1).
Proof.
  intros (Hl & Hs & Ht) (A1 & A2 & A3 & A4 & A5).
  split; [by apply A5|]. split; [simpl; congruence|].
  intros h' t' H. apply set_status_coro in H as (t & H & ->).
  rewrite A4 in H. eauto.
Qed.

Lemma well_formed_first_step f h w : well_formed w → well_formed (first_step f h w).
Proof.
  intros Hw. unfold first_step.
  destruct (loop_tasks w !! h) as [[task [| |r]]|]; try done.
  pose proof (track_resources_setup task w) as Ht.
  destruct (track_resources task w) as [[[]|e] w1]; simpl in Ht.
  - by apply well_formed_set_status with w.
  - pose proof (abort_setup f task e w1) as Ha.
    destruct (abort f task e w1) as [r w2]; simpl in Ha.
    apply well_formed_set_status with w; [done|].
    by eapply same_setup_trans.
Qed.

Lemma well_formed_wake f h o w : well_formed w → well_formed (wake f h o w).
Proof.
  intros Hw. unfold wake.
  destruct (loop_tasks w !! h) as [[task [| |r]]|]; try done.
  pose proof (after_body_setup f task o w) as Ha.
  destruct (after_body f task o w) as [r w1]; simpl in Ha.
  by apply well_formed_set_status with w.
Qed.

Lemma well_formed_cancel f h w : well_formed w → well_formed (cancel f h w).
Proof.
  intros Hw. unfold cancel.
  destruct (loop_tasks w !! h) as [[task [| |r]]|] eqn:Hh; try done.
  - apply well_formed_set_status with w; [done | apply same_setup_refl].
  - by apply well_formed_wake.
Qed.

Lemma well_formed_shutdown f w : well_formed w → well_formed (shutdown f w).
Proof.
  unfold shutdown. generalize ((map_to_list (_task_registry w)).*2) as hs.
  intros hs. revert w. induction hs as [|h hs IH]; intros w Hw; simpl; [done|].
  by apply IH, well_formed_cancel.
Qed.

Lemma well_formed_handle_task_request task w :
  well_formed w → well_formed (_handle_task_request task w).2.
Proof.
  intros Hw. pose proof Hw as (Hl & Hs & Ht). unfold _handle_task_request.
  pose proof (check_resources_pure (required_resources task) w) as Hp.
  destruct (_check_resources (required_resources task) w) as [[[|]|e] w1] eqn:Hc;
    simpl in Hp; subst w1; simpl; try done.
  destruct (_resource_semaphore w) as [|n] eqn:Hn; simpl; [done|].
  split; [done|]. split; [simpl; congruence|].
  simpl. intros h t H. apply lookup_app_Some in H as [H|[_ H]]; [eauto|].
  apply list_lookup_singleton_Some in H as [_ <-]. simpl.
  by apply check_resources_true in Hc.
Qed.

Create HintDb worker discriminated.
#[local] Hint Resolve well_formed_handle_task_request well_formed_first_step
  well_formed_wake well_formed_cancel well_formed_shutdown : worker.

Lemma well_formed_step f w ev : well_formed w → well_formed (step f w ev).
Proof. destruct ev; simpl; auto with worker. Qed.

Lemma well_formed_run f evs w : well_formed w → well_formed (run f evs w).
Proof.
  unfold run. revert w. induction evs as [|ev evs IH]; intros w Hw; simpl; [done|].
  by apply IH, well_formed_step.
Qed.

Lemma well_formed_init cfg k : well_formed (WorkerAgent_init cfg k).
Proof.
  split; [|split]; simpl.
  - split; simpl.
    + rewrite lookup_insert_eq. eauto.
    + rewrite lookup_insert_ne by done. rewrite lookup_insert_eq. eauto.
  - reflexivity.
  - intros h t H. by rewrite lookup_nil in H.
Qed.

(** Every worker a trace produces has a ledger with both kinds, a free
    semaphore with all its slots, and only tasks whose requests name both
    kinds. *)
Lemma reachable_well_formed f w : reachable f w → well_formed w.
Proof. intros (cfg & k & evs & ->). apply well_formed_run, well_formed_init. Qed.

Lemma started_task_kinds w h task s :
  well_formed w →
  loop_tasks w !! h = Some {| coro := task; status := s |} →
  ∃ lc lm rc rm,
    _current_load w !! "cpu" = Some lc ∧ _current_load w !! "mem_gb" = Some lm ∧
    required_resources task !! "cpu" = Some rc ∧
    required_resources task !! "mem_gb" = Some rm.
Proof.
  intros ([[lc Hc] [lm Hm]] & _ & Ht) Hh.
  destruct (Ht _ _ Hh) as [[rc Hrc] [rm Hrm]]. simpl in *. eauto 10.
Qed.

(** On every worker a trace produces, with a positive
    [max_concurrent_tasks], an admission finds a free slot: the semaphore
    never makes a request wait. *)
Lemma admission_never_waits f task w :
  reachable f w →
  0 < max_concurrent_tasks (worker_config w) →
  (_handle_task_request task w).1 ≠ WaitsForSlot.
Proof.
  intros Hr Hpos. apply reachable_well_formed in Hr as (_ & Hs & _).
  unfold _handle_task_request.
  destruct (_check_resources (required_resources task) w) as [[[|]|e] w1] eqn:Hc; try done.
  pose proof (check_resources_pure (required_resources task) w) as Hp.
  rewrite Hc in Hp; simpl in Hp; subst w1.
  destruct (_resource_semaphore w) as [|n]; [lia | done].
Qed.


(** The scenario of the specification, one request after the other: with
    [task_a] under way [task_b] is rejected; once [task_a] has finished,
    [task_b] is admitted. *)
Lemma second_request_admitted_after_first_completes f :
  (_handle_task_request task_b
     (run f [Request task_a; FirstStep 0] fresh_worker)).1
    = Replied {["error" := "insufficient_resources"]} ∧
  (_handle_task_request task_b
     (run f [Request task_a; FirstStep 0; Wake 0 (Returned ∅)] fresh_worker)).1
    = Replied (<["task_id" := "b"]> {["status" := "queued"]}).
Proof. split; vm_compute; reflexivity. Qed.

(** [get_metrics] succeeds on every reachable worker and counts the
    registry entries. *)
Lemma get_metrics_reachable f qsize w :
  reachable f w →
  ∃ m, get_metrics qsize w = Ok m ∧
       active_tasks m = size (_task_registry w) ∧ queue_size m = qsize ∧
       _current_load w !! "cpu" = Some (cpu_usage m) ∧
       _current_load w !! "mem_gb" = Some (mem_usage_gb m).
Proof.
  intros Hr. apply reachable_well_formed in Hr as ([[c Hc] [m Hm]] & _).
  unfold get_metrics. rewrite Hc, Hm. eexists. repeat split.
Qed.

(** The validator of the limits names the same two kinds as the check. *)
Lemma validate_resources_default :
  validate_resources default_resource_limits = Ok default_resource_limits ∧
  validate_resources {["mem_gb" := 8.0%float]} = Raise (KeyError "cpu").
Proof. split; vm_compute; reflexivity. Qed.

(** ** Outcomes of an execution *)

(** C3.  When an execution that waits for its body on a reachable worker
    is resumed with an exception [e] that the [except] clauses catch (the
    deadline's [TimeoutError] or any other [Exception]), the failure is
    logged, and a [TaskResult] with [success = false] and an "error"
    metric reaches the reporter only if [metrics: Dict[str, float]] can
    read the reason string as a float.  Otherwise building the result
    raises, nothing is reported, and the task ends with that
    [ValidationError]. *)
Theorem failure_result_needs_float_reason f w h task e :
  reachable f w →
  loop_tasks w !! h = Some {| coro := task; status := Awaiting |} →
  is_Exception e = true →
  reported (wake f h (Threw e) w) =
    match f (failure_reason e) with
    | Some x =>
        reported w ++
        [with_k8s_artifact (k8s w)
           {| result_task_id := task_id task; success := false;
              metrics := {["error" := x]}; artifacts := [] |}]
    | None => reported w
    end ∧
  logged (wake f h (Threw e) w) =
    logged w ++ ["Task " +:+ task_id task +:+ " failed: " +:+ failure_reason e] ∧
  loop_tasks (wake f h (Threw e) w) !! h =
    Some {| coro := task;
            status := Done (match f (failure_reason e) with
                            | Some _ => Ok tt
                            | None => Raise (ValidationError "metrics")
                            end) |}.
Proof.
  intros Hreach Hh He. apply reachable_well_formed in Hreach.
  destruct (started_task_kinds _ _ _ _ Hreach Hh) as (lc & lm & rc & rm & H1 & H2 & H3 & H4).
  destruct (after_body_cleanup f task (Threw e) w lc lm rc rm H1 H2 H3 H4)
    as (_ & _ & Ht & Hres).
  rewrite (wake_awaiting _ _ _ _ _ Hh).
  assert (Hguard : try_except (timed_block task (Threw e)) (except_clauses f task) w
                   = _handle_task_failure f (task_id task) (failure_reason e) w).
  { unfold try_except, timed_block, raise. by rewrite (except_clauses_reason _ _ _ He). }
  split; [|split].
  - unfold set_status; simpl. rewrite after_body_reported, Hguard.
    apply handle_task_failure_reported.
  - unfold set_status; simpl. rewrite after_body_logged, Hguard.
    apply handle_task_failure_logged.
  - rewrite Hres, Hguard, handle_task_failure_result.
    apply (set_status_lookup _ _ _ task Awaiting). by rewrite Ht.
Qed.

Lemma failure_result_needs_float_reason_witness :
  reported (wake float_of_name 0 (Threw TimeoutError) worker_running_a) = [] ∧
  logged (wake float_of_name 0 (Threw TimeoutError) worker_running_a)
    = ["Task a failed: timeout"] ∧
  loop_tasks (wake float_of_name 0 (Threw TimeoutError) worker_running_a) !! 0
    = Some {| coro := task_a; status := Done (Raise (ValidationError "metrics")) |}.
Proof.
  destruct (failure_result_needs_float_reason float_of_name worker_running_a 0 task_a
              TimeoutError) as (Hrep & Hlog & Hdone).
  - exists WorkerConfig_default, None, [Request task_a; FirstStep 0]. reflexivity.
  - vm_compute; reflexivity.
  - reflexivity.
  - rewrite Hrep, Hlog, Hdone. repeat split; vm_compute; reflexivity.
Defined.

(** C4.  One resumption of an execution adds to the reporter as many
    results as [results_built] says: one on success, one on a caught
    failure when the reason string reads as a float, none when it does not,
    none on cancellation.  Never more than one. *)
Theorem results_per_execution f w h task o :
  loop_tasks w !! h = Some {| coro := task; status := Awaiting |} →
  length (reported (wake f h o w)) = length (reported w) + results_built f o.
Proof.
  intros Hh. rewrite (wake_awaiting _ _ _ _ _ Hh).
  unfold set_status; simpl. rewrite after_body_reported.
  unfold try_except, timed_block, results_built.
  destruct o as [m|e].
  - unfold _report_to_orchestrator, bind, get, modify; simpl.
    by rewrite length_app.
  - unfold raise. destruct (is_Exception e) eqn:He.
    + rewrite (except_clauses_reason _ _ _ He), handle_task_failure_reported.
      destruct (f (failure_reason e)); [by rewrite length_app | simpl; lia].
    + destruct e; try discriminate. simpl. lia.
Qed.

Lemma results_per_execution_witness :
  length (reported (wake float_of_name 0 (Threw TimeoutError) worker_running_a)) = 0 ∧
  length (reported (wake float_of_name 0 (Threw (OtherError "boom")) worker_running_a)) = 0 ∧
  length (reported (wake float_of_name 0 (Returned ∅) worker_running_a)) = 1.
Proof.
  split; [|split].
  - refine (eq_trans
      (results_per_execution float_of_name worker_running_a 0 task_a (Threw TimeoutError) _) _);
      vm_compute; reflexivity.
  - refine (eq_trans
      (results_per_execution float_of_name worker_running_a 0 task_a
         (Threw (OtherError "boom")) _) _);
      vm_compute; reflexivity.
  - refine (eq_trans
      (results_per_execution float_of_name worker_running_a 0 task_a (Returned ∅) _) _);
      vm_compute; reflexivity.
Defined.

(** C5, as stated, fails.  With a task of 0.1 cpu under way, a task of
    0.2 cpu is admitted, runs and succeeds; the cleanup subtracts what was
    added, and the load does not come back to the value it had before.
    And an admitted task that is cancelled before its first step keeps its
    registry entry. *)
Lemma load_not_restored_exactly :
  (_handle_task_request fifth worker_running_tenth).1
    = Replied (<["task_id" := "fifth"]> {["status" := "queued"]}) ∧
  _current_load worker_running_tenth !! "cpu" = Some 0.1%float ∧
  _current_load
    (run float_of_name [Request fifth; FirstStep 1; Wake 1 (Returned ∅)] worker_running_tenth)
    !! "cpu" = Some 0.10000000000000003%float ∧
  PrimFloat.eqb 0.10000000000000003 0.1 = false ∧
  _current_load
    (run float_of_name [Request fifth; FirstStep 1; Wake 1 (Returned ∅)] worker_running_tenth)
  ≠ _current_load worker_running_tenth ∧
  _task_registry (run float_of_name [Request task_a; Cancel 0] fresh_worker) !! "a" = Some 0.
Proof.
  repeat split; try (vm_compute; reflexivity).
  intros Heq. apply (f_equal (λ m : ResourceProfile, m !! "cpu")) in Heq.
  vm_compute in Heq.
  apply (f_equal (λ o, match o with Some x => PrimFloat.eqb x 0.1 | None => false end)) in Heq.
  vm_compute in Heq. discriminate.
Qed.

(** C5, amended.  For every execution that has started and waits for its
    body on a reachable worker, whatever the body hands back (metrics, the
    deadline's [TimeoutError], any other exception, a cancellation) and
    whether or not the failure result could be built, the [finally] block
    runs: each of "cpu" and "mem_gb" of the load becomes the binary64
    difference of its value and the task's amount, the registry entry of
    the task id is removed, and the task is done. *)
Theorem cleanup_on_every_exit f w h task o :
  reachable f w →
  loop_tasks w !! h = Some {| coro := task; status := Awaiting |} →
  ∃ lc lm rc rm,
    _current_load w !! "cpu" = Some lc ∧ _current_load w !! "mem_gb" = Some lm ∧
    required_resources task !! "cpu" = Some rc ∧
    required_resources task !! "mem_gb" = Some rm ∧
    _current_load (wake f h o w) =
      <["mem_gb" := PrimFloat.sub lm rm]>
        (<["cpu" := PrimFloat.sub lc rc]> (_current_load w)) ∧
    _task_registry (wake f h o w) = delete (task_id task) (_task_registry w) ∧
    ∃ r, loop_tasks (wake f h o w) !! h = Some {| coro := task; status := Done r |}.
Proof.
  intros Hreach Hh. apply reachable_well_formed in Hreach.
  destruct (started_task_kinds _ _ _ _ Hreach Hh) as (lc & lm & rc & rm & H1 & H2 & H3 & H4).
  exists lc, lm, rc, rm. repeat (split; [assumption|]).
  rewrite (wake_awaiting _ _ _ _ _ Hh).
  destruct (after_body_cleanup f task o w lc lm rc rm H1 H2 H3 H4) as (Hl & Hr & Ht & _).
  split; [exact Hl|]. split; [exact Hr|].
  eexists. apply (set_status_lookup _ _ _ task Awaiting). by rewrite Ht.
Qed.

Lemma cleanup_on_every_exit_witness :
  _task_registry (wake float_of_name 0 (Threw TimeoutError) worker_running_a) = ∅ ∧
  ∃ r, loop_tasks (wake float_of_name 0 (Threw TimeoutError) worker_running_a) !! 0
       = Some {| coro := task_a; status := Done r |}.
Proof.
  destruct (cleanup_on_every_exit float_of_name worker_running_a 0 task_a (Threw TimeoutError))
    as (lc & lm & rc & rm & _ & _ & _ & _ & _ & Hr & Hd).
  - exists WorkerConfig_default, None, [Request task_a; FirstStep 0]. reflexivity.
  - vm_compute; reflexivity.
  - split; [|exact Hd]. rewrite Hr. vm_compute; reflexivity.
Defined.

(** What a cancellation does to an execution that is under way. *)
Lemma cancel_started f w h task lc lm rc rm :
  loop_tasks w !! h = Some {| coro := task; status := Awaiting |} →
  _current_load w !! "cpu" = Some lc →
  _current_load w !! "mem_gb" = Some lm →
  required_resources task !! "cpu" = Some rc →
  required_resources task !! "mem_gb" = Some rm →
  reported (cancel f h w) = reported w ∧
  logged (cancel f h w) = logged w ∧
  _current_load (cancel f h w) =
    <["mem_gb" := PrimFloat.sub lm rm]> (<["cpu" := PrimFloat.sub lc rc]> (_current_load w)) ∧
  _task_registry (cancel f h w) = delete (task_id task) (_task_registry w) ∧
  loop_tasks (cancel f h w) !! h
    = Some {| coro := task; status := Done (Raise CancelledError) |}.
Proof.
  intros Hh H1 H2 H3 H4. rewrite (cancel_awaiting _ _ _ _ Hh).
  rewrite (wake_awaiting _ _ _ _ _ Hh).
  destruct (after_body_cleanup f task (Threw CancelledError) w lc lm rc rm H1 H2 H3 H4)
    as (Hl & Hr & Ht & Hres).
  repeat split.
  - unfold set_status; simpl. by rewrite after_body_reported.
  - unfold set_status; simpl. by rewrite after_body_logged.
  - exact Hl.
  - exact Hr.
  - rewrite Hres. apply (set_status_lookup _ _ _ task Awaiting). by rewrite Ht.
Qed.




(** ** Races between admission and execution *)

(** C1 fails on the code: the check runs inside [_handle_task_request]
    and the load is raised only when the created task takes its first
    step.  Two requests of [{cpu: 1.2, mem_gb: 4}] that arrive before the
    first execution has started are both admitted against
    [{cpu: 2.0, mem_gb: 8}]; once both have started the load is 2.4 cpu. *)
Theorem check_and_increment_not_atomic f :
  (_handle_task_request task_a fresh_worker).1
    = Replied (<["task_id" := "a"]> {["status" := "queued"]}) ∧
  (_handle_task_request task_b (_handle_task_request task_a fresh_worker).2).1
    = Replied (<["task_id" := "b"]> {["status" := "queued"]}) ∧
  in_flight (run f [Request task_a; Request task_b; FirstStep 0; FirstStep 1] fresh_worker)
    = [task_a; task_b] ∧
  _current_load (run f [Request task_a; Request task_b; FirstStep 0; FirstStep 1] fresh_worker)
    !! "cpu" = Some (PrimFloat.add 1.2 1.2) ∧
  resource_limits (worker_config fresh_worker) !! "cpu" = Some 2.0%float ∧
  PrimFloat.leb (PrimFloat.add 1.2 1.2) 2.0 = false.
Proof. repeat split; vm_compute; reflexivity. Qed.

(** C2 fails on the code: the semaphore is held only while the task is
    created, so it is free again before any execution runs.  Six small
    requests against [max_concurrent_tasks = 5], each started before the
    next one arrives, are all admitted; all six executions are under way
    at once, with every slot free. *)
Theorem semaphore_does_not_bound_executions f :
  length (in_flight (run f six_small_started fresh_worker)) = 6 ∧
  max_concurrent_tasks (worker_config fresh_worker) = 5 ∧
  _resource_semaphore (run f six_small_started fresh_worker) = 5.
Proof. repeat split; vm_compute; reflexivity. Qed.

(** ** Shutdown *)

Lemma wake_other f h o w h' :
  h ≠ h' → loop_tasks (wake f h o w) !! h' = loop_tasks w !! h'.
Proof.
  intros Hne. unfold wake.
  destruct (loop_tasks w !! h) as [[task [| |r]]|]; try done.
  pose proof (after_body_setup f task o w) as (_ & _ & _ & Ht & _).
  destruct (after_body f task o w) as [r w1]; simpl in *.
  rewrite list_lookup_alter_ne by done. by rewrite Ht.
Qed.

Lemma cancel_other f h w h' :
  h ≠ h' → loop_tasks (cancel f h w) !! h' = loop_tasks w !! h'.
Proof.
  intros Hne. unfold cancel.
  destruct (loop_tasks w !! h) as [[task [| |r]]|] eqn:Hh; try done.
  - simpl. by rewrite list_lookup_alter_ne.
  - by apply wake_other.
Qed.

Lemma drain_started f (entries : list (TaskID * nat)) : ∀ w,
  well_formed w →
  NoDup entries.*1 →
  (∀ tid h, (tid, h) ∈ entries →
     ∃ task, loop_tasks w !! h = Some {| coro := task; status := Awaiting |} ∧
             task_id task = tid) →
  (∀ tid, _task_registry (foldl (λ w' h, cancel f h w') w entries.*2) !! tid =
          if decide (tid ∈ entries.*1) then None else _task_registry w !! tid) ∧
  (∀ tid h, (tid, h) ∈ entries →
     ∃ task, loop_tasks (foldl (λ w' h, cancel f h w') w entries.*2) !! h =
             Some {| coro := task; status := Done (Raise CancelledError) |}) ∧
  (∀ h, h ∉ entries.*2 →
     loop_tasks (foldl (λ w' h, cancel f h w') w entries.*2) !! h = loop_tasks w !! h) ∧
  reported (foldl (λ w' h, cancel f h w') w entries.*2) = reported w.
Proof.
  induction entries as [|[tid h] entries IH]; intros w Hw Hnd Hst.
  - simpl. repeat split; try done.
    + intros tid h H. by apply elem_of_nil in H.
  - simpl in *. apply NoDup_cons in Hnd as [Hnotin Hnd].
    destruct (Hst tid h) as (task & Hh & Hid); [left|].
    destruct (started_task_kinds _ _ _ _ Hw Hh) as (lc & lm & rc & rm & H1 & H2 & H3 & H4).
    destruct (cancel_started f w h task lc lm rc rm Hh H1 H2 H3 H4)
      as (Hrep & _ & _ & Hreg & Hdone).
    assert (Hothers : ∀ tid' h', (tid', h') ∈ entries → h' ≠ h).
    { intros tid' h' Hin ->. destruct (Hst tid' h) as (task' & Hh' & Hid'); [by right|].
      rewrite Hh in Hh'. simplify_eq. apply Hnotin.
      apply list_elem_of_fmap. by exists (task_id task', h). }
    destruct (IH (cancel f h w)) as (IHreg & IHdone & IHother & IHrep).
    { by apply well_formed_cancel. }
    { done. }
    { intros tid' h' Hin. rewrite cancel_other.
      - apply Hst. by right.
      - intros ->. by eapply Hothers. }
    split; [|split; [|split]].
    + intros t. rewrite IHreg, Hreg. subst tid. simpl.
      repeat case_decide;
        repeat match goal with
        | H : _ ∈ _ :: _ |- _ => apply elem_of_cons in H as [->|?]
        | H : _ ∉ _ :: _ |- _ => apply not_elem_of_cons in H as [? ?]
        end; try done.
      * apply lookup_delete_eq.
      * by apply lookup_delete_ne.
    + intros tid' h' Hin. apply elem_of_cons in Hin as [Heq|Hin].
      * simplify_eq. exists task. rewrite IHother; [done|].
        intros Hc. apply list_elem_of_fmap in Hc as ([t2 h2] & ? & Hin2). simpl in *. subst h2.
        by eapply Hothers.
      * by eapply IHdone.
    + intros h' Hnin. rewrite IHother.
      * apply cancel_other. intros ->. apply Hnin. left.
      * intros Hc. apply Hnin. by right.
    + etransitivity; [exact IHrep | exact Hrep].
Qed.

(** When every registered handle belongs to a started execution,
    [shutdown] leaves the registry empty, every registered execution done
    (cancelled), and reports nothing. *)
Lemma shutdown_drains_started f w :
  well_formed w →
  registry_tracks_started w →
  _task_registry (shutdown f w) = ∅ ∧
  (∀ tid h, _task_registry w !! tid = Some h →
     ∃ task, loop_tasks (shutdown f w) !! h =
             Some {| coro := task; status := Done (Raise CancelledError) |}) ∧
  reported (shutdown f w) = reported w.
Proof.
  intros Hw Hst. unfold shutdown.
  destruct (drain_started f (map_to_list (_task_registry w)) w Hw) as (Hreg & Hdone & _ & Hrep).
  { apply NoDup_fst_map_to_list. }
  { intros tid h Hin. apply Hst. by apply elem_of_map_to_list. }
  split; [|split].
  - apply map_eq. intros tid. rewrite Hreg, lookup_empty.
    case_decide as Hin; [done|].
    destruct (_task_registry w !! tid) as [h|] eqn:Hl; [|done].
    exfalso. apply Hin. apply list_elem_of_fmap. exists (tid, h).
    split; [done|]. by apply elem_of_map_to_list.
  - intros tid h Hl. apply (Hdone tid h). by apply elem_of_map_to_list.
  - exact Hrep.
Qed.

(** If moreover every started execution is registered, nothing is under
    way any more when [shutdown] returns. *)
Lemma shutdown_leaves_nothing_running f w :
  well_formed w →
  registry_tracks_started w →
  started_are_registered w →
  in_flight (shutdown f w) = [].
Proof.
  intros Hw Hst Hreg.
  destruct (drain_started f (map_to_list (_task_registry w)) w Hw) as (_ & Hdone & Hother & _).
  { apply NoDup_fst_map_to_list. }
  { intros tid h Hin. apply Hst. by apply elem_of_map_to_list. }
  unfold in_flight, shutdown.
  set (w' := foldl _ w _) in *.
  destruct (omap _ (loop_tasks w')) as [|x xs] eqn:Hom; [done|]. exfalso.
  assert (Hx : x ∈ omap (λ t, match status t with Awaiting => Some (coro t) | _ => None end)
                   (loop_tasks w')) by (rewrite Hom; left).
  apply list_elem_of_omap in Hx as ([task st] & Hin & Hsome).
  destruct st; simplify_eq/=.
  apply list_elem_of_lookup in Hin as [h Hh].
  destruct (decide (h ∈ (map_to_list (_task_registry w)).*2)) as [Hreg'|Hnot].
  - apply list_elem_of_fmap in Hreg' as ([tid h'] & -> & Hentry). simpl in *.
    destruct (Hdone _ _ Hentry) as (task' & Hd). rewrite Hd in Hh. discriminate.
  - rewrite (Hother _ Hnot) in Hh. apply Hnot.
    apply list_elem_of_fmap. exists (task_id x, h). split; [done|].
    apply elem_of_map_to_list. by apply Hreg.
Qed.

(** C6 fails on the code: a task that is cancelled before its first step
    never enters its [try], so its [finally] does not run.  After
    [shutdown] the task of the request is done, and its registry entry is
    still there. *)
Theorem shutdown_leaves_unstarted_entry f :
  _task_registry (run f [Request task_a; Shutdown] fresh_worker) !! "a" = Some 0 ∧
  loop_tasks (run f [Request task_a; Shutdown] fresh_worker)
    = [{| coro := task_a; status := Done (Raise CancelledError) |}].
Proof. repeat split; vm_compute; reflexivity. Qed.

(** ** Admission, further *)

Lemma admission_frame task w :
  _current_load (_handle_task_request task w).2 = _current_load w ∧
  reported (_handle_task_request task w).2 = reported w ∧
  logged (_handle_task_request task w).2 = logged w ∧
  _resource_semaphore (_handle_task_request task w).2 = _resource_semaphore w ∧
  worker_config (_handle_task_request task w).2 = worker_config w ∧
  ∀ h t, loop_tasks w !! h = Some t →
         loop_tasks (_handle_task_request task w).2 !! h = Some t.
Proof.
  unfold _handle_task_request.
  pose proof (check_resources_pure (required_resources task) w) as Hp.
  destruct (_check_resources (required_resources task) w) as [[[|]|e] w1];
    simpl in Hp; subst w1; simpl; try done.
  destruct (_resource_semaphore w) as [|n] eqn:Hs; simpl; [done|].
  repeat split; try done.
  intros h t Hh. by apply lookup_app_l_Some.
Qed.

(** X1.  Whatever its answer, [_handle_task_request] leaves the load, the
    reporter, the log, the semaphore and the configuration as they are,
    and every task that was on the loop keeps its entry: an admission
    only books the request, it charges nothing to the ledger. *)
Theorem admission_charges_nothing task w :
  _current_load (_handle_task_request task w).2 = _current_load w ∧
  reported (_handle_task_request task w).2 = reported w ∧
  logged (_handle_task_request task w).2 = logged w ∧
  _resource_semaphore (_handle_task_request task w).2 = _resource_semaphore w ∧
  worker_config (_handle_task_request task w).2 = worker_config w ∧
  ∀ h t, loop_tasks w !! h = Some t →
         loop_tasks (_handle_task_request task w).2 !! h = Some t.
Proof. apply admission_frame. Qed.

Lemma handle_task_request_admits task w lc rc limc lm rm limm n :
  _current_load w !! "cpu" = Some lc →
  required_resources task !! "cpu" = Some rc →
  resource_limits (worker_config w) !! "cpu" = Some limc →
  _current_load w !! "mem_gb" = Some lm →
  required_resources task !! "mem_gb" = Some rm →
  resource_limits (worker_config w) !! "mem_gb" = Some limm →
  PrimFloat.leb (PrimFloat.add lc rc) limc = true →
  PrimFloat.leb (PrimFloat.add lm rm) limm = true →
  _resource_semaphore w = S n →
  _handle_task_request task w =
    (Replied (<["task_id" := task_id task]> {["status" := "queued"]}),
     set_semaphore (S n)
       (set_registry (insert (task_id task) (length (loop_tasks w)))
          (set_loop_tasks (λ ts, ts ++ [{| coro := task; status := Created |}])
             (set_semaphore n w)))).
Proof.
  intros H1 H2 H3 H4 H5 H6 Hc Hm Hs. unfold _handle_task_request.
  rewrite (check_resources_value _ _ _ _ _ _ _ _ H1 H2 H3 H4 H5 H6), Hc, Hm. simpl.
  rewrite Hs. reflexivity.
Qed.

(** X2.  On a reachable worker with a positive [max_concurrent_tasks], a
    request that fits both kinds is answered "queued"; afterwards the
    registry maps its id to a new handle, and that handle is a task of
    the loop for this request that has not run yet.  The number of loop
    tasks grows by one. *)
Theorem admitted_request_is_registered f task w lc rc limc lm rm limm :
  reachable f w →
  0 < max_concurrent_tasks (worker_config w) →
  _current_load w !! "cpu" = Some lc →
  required_resources task !! "cpu" = Some rc →
  resource_limits (worker_config w) !! "cpu" = Some limc →
  _current_load w !! "mem_gb" = Some lm →
  required_resources task !! "mem_gb" = Some rm →
  resource_limits (worker_config w) !! "mem_gb" = Some limm →
  PrimFloat.leb (PrimFloat.add lc rc) limc = true →
  PrimFloat.leb (PrimFloat.add lm rm) limm = true →
  (_handle_task_request task w).1
    = Replied (<["task_id" := task_id task]> {["status" := "queued"]}) ∧
  _task_registry (_handle_task_request task w).2 !! task_id task
    = Some (length (loop_tasks w)) ∧
  loop_tasks (_handle_task_request task w).2 !! length (loop_tasks w)
    = Some {| coro := task; status := Created |} ∧
  length (loop_tasks (_handle_task_request task w).2) = S (length (loop_tasks w)).
Proof.
  intros Hr Hpos H1 H2 H3 H4 H5 H6 Hc Hm.
  apply reachable_well_formed in Hr as (_ & Hs & _).
  destruct (_resource_semaphore w) as [|n] eqn:Hn; [lia|].
  rewrite (handle_task_request_admits _ _ _ _ _ _ _ _ n H1 H2 H3 H4 H5 H6 Hc Hm Hn).
  simpl. split; [done|]. split; [apply lookup_insert_eq|]. split.
  - rewrite lookup_app_r by done. by rewrite Nat.sub_diag.
  - rewrite length_app. simpl. lia.
Qed.

Lemma admitted_request_is_registered_witness :
  (_handle_task_request task_a fresh_worker).1
    = Replied (<["task_id" := "a"]> {["status" := "queued"]}) ∧
  _task_registry (_handle_task_request task_a fresh_worker).2 !! "a" = Some 0.
Proof.
  destruct (admitted_request_is_registered float_of_name task_a fresh_worker
              0 1.2 2 0 4 8) as (Hrep & Hreg & _);
    try (vm_compute; reflexivity).
  - exists WorkerConfig_default, None, []. reflexivity.
  - vm_compute. lia.
  - split; [exact Hrep | exact Hreg].
Defined.

(** A check that answers [True] has found all six entries and both
    comparisons true. *)
Lemma check_resources_true_values required w w1 :
  _check_resources required w = (Ok true, w1) →
  ∃ lc rc limc lm rm limm,
    _current_load w !! "cpu" = Some lc ∧ required !! "cpu" = Some rc ∧
    resource_limits (worker_config w) !! "cpu" = Some limc ∧
    _current_load w !! "mem_gb" = Some lm ∧ required !! "mem_gb" = Some rm ∧
    resource_limits (worker_config w) !! "mem_gb" = Some limm ∧
    PrimFloat.leb (PrimFloat.add lc rc) limc = true ∧
    PrimFloat.leb (PrimFloat.add lm rm) limm = true.
Proof.
  unfold _check_resources, bind, get, getitem, ret, raise.
  intros H. repeat (case_match; simplify_eq/=). eauto 15.
Qed.

Lemma handle_task_request_queued task w r :
  (_handle_task_request task w).1 = Replied r →
  r !! "status" = Some "queued" →
  ∃ n, _resource_semaphore w = S n ∧
       _check_resources (required_resources task) w = (Ok true, w).
Proof.
  unfold _handle_task_request.
  pose proof (check_resources_pure (required_resources task) w) as Hp.
  destruct (_check_resources (required_resources task) w) as [[[|]|e] w1];
    simpl in Hp; subst w1; simpl.
  - destruct (_resource_semaphore w) as [|n]; simpl; [done|]. eauto.
  - intros [= <-]. by rewrite lookup_singleton_ne.
  - done.
Qed.

Lemma first_step_created f h w task :
  loop_tasks w !! h = Some {| coro := task; status := Created |} →
  first_step f h w =
    match track_resources task w with
    | (Ok _, w1) => set_status h Awaiting w1
    | (Raise e, w1) => set_status h (Done (abort f task e w1).1) (abort f task e w1).2
    end.
Proof.
  intros Hh. unfold first_step. rewrite Hh.
  destruct (track_resources task w) as [[[]|e] w1]; [done|].
  by destruct (abort f task e w1).
Qed.

(** X3.  On a reachable worker the first step of a created task never
    fails: it raises "cpu" and "mem_gb" of the load by the task's amounts
    (binary64 sums), marks the task as under way, and changes nothing
    else of the worker. *)
Theorem first_step_charges_the_load f w h task :
  reachable f w →
  loop_tasks w !! h = Some {| coro := task; status := Created |} →
  ∃ lc lm rc rm,
    _current_load w !! "cpu" = Some lc ∧ _current_load w !! "mem_gb" = Some lm ∧
    required_resources task !! "cpu" = Some rc ∧
    required_resources task !! "mem_gb" = Some rm ∧
    first_step f h w =
      set_status h Awaiting
        (set_load (insert "mem_gb" (PrimFloat.add lm rm))
           (set_load (insert "cpu" (PrimFloat.add lc rc)) w)).
Proof.
  intros Hr Hh. apply reachable_well_formed in Hr.
  destruct (started_task_kinds _ _ _ _ Hr Hh) as (lc & lm & rc & rm & H1 & H2 & H3 & H4).
  exists lc, lm, rc, rm. repeat (split; [assumption|]).
  rewrite (first_step_created _ _ _ _ Hh).
  by rewrite (track_resources_ok task w lc lm rc rm H1 H2 H3 H4).
Qed.

Lemma first_step_charges_the_load_witness :
  _current_load (first_step float_of_name 0 (_handle_task_request task_a fresh_worker).2)
    !! "cpu" = Some 1.2%float ∧
  is_awaiting (first_step float_of_name 0 (_handle_task_request task_a fresh_worker).2) 0
    = true.
Proof.
  destruct (first_step_charges_the_load float_of_name
              (_handle_task_request task_a fresh_worker).2 0 task_a)
    as (lc & lm & rc & rm & H1 & H2 & H3 & H4 & Heq).
  - exists WorkerConfig_default, None, [Request task_a]. reflexivity.
  - vm_compute; reflexivity.
  - vm_compute in H1, H2, H3, H4.
    injection H1 as <-. injection H2 as <-. injection H3 as <-. injection H4 as <-.
    rewrite Heq. split; vm_compute; reflexivity.
Defined.

(** X4.  When a request is answered "queued" on a reachable worker and
    its task takes its first step before anything else happens, the load
    that results is within the limit for "cpu" and for "mem_gb": the sums
    the check compared are the values the ledger then holds. *)
Theorem started_at_once_within_limits f task w r :
  reachable f w →
  (_handle_task_request task w).1 = Replied r →
  r !! "status" = Some "queued" →
  ∃ c m limc limm,
    _current_load (first_step f (length (loop_tasks w)) (_handle_task_request task w).2)
      !! "cpu" = Some c ∧
    _current_load (first_step f (length (loop_tasks w)) (_handle_task_request task w).2)
      !! "mem_gb" = Some m ∧
    resource_limits (worker_config w) !! "cpu" = Some limc ∧
    resource_limits (worker_config w) !! "mem_gb" = Some limm ∧
    PrimFloat.leb c limc = true ∧ PrimFloat.leb m limm = true.
Proof.
  intros Hr Hrep Hq.
  destruct (handle_task_request_queued _ _ _ Hrep Hq) as (n & Hn & Hc).
  destruct (check_resources_true_values _ _ _ Hc)
    as (lc & rc & limc & lm & rm & limm & H1 & H2 & H3 & H4 & H5 & H6 & Hlc & Hlm).
  rewrite (handle_task_request_admits _ _ _ _ _ _ _ _ n H1 H2 H3 H4 H5 H6 Hlc Hlm Hn).
  exists (PrimFloat.add lc rc), (PrimFloat.add lm rm), limc, limm.
  rewrite (first_step_created f _ _ task).
  2:{ simpl. rewrite lookup_app_r by done. by rewrite Nat.sub_diag. }
  rewrite (track_resources_ok task _ lc lm rc rm) by done.
  simpl. split; [|split]; [| |done].
  - rewrite lookup_insert_ne by done. apply lookup_insert_eq.
  - apply lookup_insert_eq.
Qed.

Lemma started_at_once_within_limits_witness :
  ∃ c m limc limm,
    _current_load (first_step float_of_name 0 (_handle_task_request task_a fresh_worker).2)
      !! "cpu" = Some c ∧
    _current_load (first_step float_of_name 0 (_handle_task_request task_a fresh_worker).2)
      !! "mem_gb" = Some m ∧
    resource_limits (worker_config fresh_worker) !! "cpu" = Some limc ∧
    resource_limits (worker_config fresh_worker) !! "mem_gb" = Some limm ∧
    PrimFloat.leb c limc = true ∧ PrimFloat.leb m limm = true.
Proof.
  apply (started_at_once_within_limits float_of_name task_a fresh_worker
           (<["task_id" := "a"]> {["status" := "queued"]})).
  - exists WorkerConfig_default, None, []. reflexivity.
  - vm_compute; reflexivity.
  - vm_compute; reflexivity.
Defined.

(** ** What a trace never changes *)

Lemma step_same_setup_fields f w ev :
  worker_config (step f w ev) = worker_config w ∧ k8s (step f w ev) = k8s w.
Proof.
  assert (Hcancel : ∀ h w0, worker_config (cancel f h w0) = worker_config w0 ∧
                            k8s (cancel f h w0) = k8s w0).
  { intros h w0. unfold cancel, wake.
    destruct (loop_tasks w0 !! h) as [[task [| |r]]|]; try done.
    pose proof (after_body_setup f task (Threw CancelledError) w0) as (A1 & A2 & _).
    by destruct (after_body f task (Threw CancelledError) w0). }
  destruct ev as [task|h|h o|h|]; simpl.
  - unfold _handle_task_request.
    pose proof (check_resources_pure (required_resources task) w) as Hp.
    destruct (_check_resources (required_resources task) w) as [[[|]|e] w1];
      simpl in Hp; subst w1; simpl; try done.
    by destruct (_resource_semaphore w).
  - unfold first_step.
    destruct (loop_tasks w !! h) as [[task [| |r]]|]; try done.
    pose proof (track_resources_setup task w) as (A1 & A2 & _).
    destruct (track_resources task w) as [[[]|e] w1]; simpl in *; [done|].
    pose proof (abort_setup f task e w1) as (B1 & B2 & _).
    destruct (abort f task e w1) as [r w2]; simpl in *. split; congruence.
  - unfold wake.
    destruct (loop_tasks w !! h) as [[task [| |r]]|]; try done.
    pose proof (after_body_setup f task o w) as (A1 & A2 & _).
    by destruct (after_body f task o w).
  - apply Hcancel.
  - unfold shutdown. generalize ((map_to_list (_task_registry w)).*2) as hs.
    intros hs. revert w. induction hs as [|h hs IH]; intros w; simpl; [done|].
    destruct (IH (cancel f h w)) as [-> ->]. apply Hcancel.
Qed.

Lemma run_same_setup_fields f evs w :
  worker_config (run f evs w) = worker_config w ∧ k8s (run f evs w) = k8s w.
Proof.
  unfold run. revert w. induction evs as [|ev evs IH]; intros w; simpl; [done|].
  destruct (IH (step f w ev)) as [-> ->]. apply step_same_setup_fields.
Qed.

(** X5.  On every reachable worker the semaphore holds all its
    [max_concurrent_tasks] slots, so with a positive bound no admission
    ever waits for a slot. *)
Theorem semaphore_always_free f task w :
  reachable f w →
  0 < max_concurrent_tasks (worker_config w) →
  _resource_semaphore w = max_concurrent_tasks (worker_config w) ∧
  (_handle_task_request task w).1 ≠ WaitsForSlot.
Proof.
  intros Hr Hpos. split.
  - by apply reachable_well_formed in Hr as (_ & Hs & _).
  - by apply (admission_never_waits f).
Qed.

Lemma semaphore_always_free_witness :
  _resource_semaphore worker_running_a = 5 ∧
  (_handle_task_request task_b worker_running_a).1 ≠ WaitsForSlot.
Proof.
  apply (semaphore_always_free float_of_name task_b worker_running_a).
  - exists WorkerConfig_default, None, [Request task_a; FirstStep 0]. reflexivity.
  - vm_compute. lia.
Defined.

(** X6.  On every reachable worker [get_metrics] returns without a
    [KeyError]; it reports the two ledger entries, the number of registry
    entries as [active_tasks], and the queue size it was given. *)
Theorem get_metrics_never_raises f qsize w :
  reachable f w →
  ∃ m, get_metrics qsize w = Ok m ∧
       active_tasks m = size (_task_registry w) ∧ queue_size m = qsize ∧
       _current_load w !! "cpu" = Some (cpu_usage m) ∧
       _current_load w !! "mem_gb" = Some (mem_usage_gb m).
Proof. apply get_metrics_reachable. Qed.

Lemma get_metrics_never_raises_witness :
  ∃ m, get_metrics 3 worker_running_a = Ok m ∧
       active_tasks m = size (_task_registry worker_running_a) ∧ queue_size m = 3 ∧
       _current_load worker_running_a !! "cpu" = Some (cpu_usage m) ∧
       _current_load worker_running_a !! "mem_gb" = Some (mem_usage_gb m).
Proof.
  apply (get_metrics_never_raises float_of_name 3 worker_running_a).
  exists WorkerConfig_default, None, [Request task_a; FirstStep 0]. reflexivity.
Defined.

(** ** Results of successful executions *)

(** The report of a success, on any worker. *)
Lemma success_result_reported f w h task m :
  loop_tasks w !! h = Some {| coro := task; status := Awaiting |} →
  reported (wake f h (Returned m) w) =
    reported w ++
    [with_k8s_artifact (k8s w)
       {| result_task_id := task_id task; success := true;
          metrics := m; artifacts := [] |}] ∧
  logged (wake f h (Returned m) w) = logged w.
Proof.
  intros Hh. rewrite (wake_awaiting _ _ _ _ _ Hh).
  split; unfold set_status; simpl.
  - by rewrite after_body_reported.
  - by rewrite after_body_logged.
Qed.

(** X7.  When an execution that is under way is resumed with the metrics
    its body returned, exactly one result is handed to the reporter: it
    carries the task id, [success = true] and the body's metrics
    unchanged (with the artifact of a Kubernetes worker, none otherwise),
    nothing is logged and the task ends without an exception. *)
Theorem success_is_reported f w h task m :
  reachable f w →
  loop_tasks w !! h = Some {| coro := task; status := Awaiting |} →
  reported (wake f h (Returned m) w) =
    reported w ++
    [with_k8s_artifact (k8s w)
       {| result_task_id := task_id task; success := true;
          metrics := m; artifacts := [] |}] ∧
  logged (wake f h (Returned m) w) = logged w ∧
  loop_tasks (wake f h (Returned m) w) !! h
    = Some {| coro := task; status := Done (Ok tt) |}.
Proof.
  intros Hreach Hh. apply reachable_well_formed in Hreach.
  destruct (started_task_kinds _ _ _ _ Hreach Hh) as (lc & lm & rc & rm & H1 & H2 & H3 & H4).
  destruct (after_body_cleanup f task (Returned m) w lc lm rc rm H1 H2 H3 H4)
    as (_ & _ & Ht & Hres).
  rewrite (wake_awaiting _ _ _ _ _ Hh).
  split; [|split].
  - unfold set_status; simpl. by rewrite after_body_reported.
  - unfold set_status; simpl. by rewrite after_body_logged.
  - rewrite Hres. apply (set_status_lookup _ _ _ task Awaiting). by rewrite Ht.
Qed.

Lemma success_is_reported_witness :
  reported (wake float_of_name 0 _run_task_impl worker_running_a) =
    [{| result_task_id := "a"; success := true;
        metrics := {["duration" := 1.0%float]}; artifacts := [] |}].
Proof.
  destruct (success_is_reported float_of_name worker_running_a 0 task_a
              {["duration" := 1.0%float]}) as (Hrep & _).
  - exists WorkerConfig_default, None, [Request task_a; FirstStep 0]. reflexivity.
  - vm_compute; reflexivity.
  - unfold _run_task_impl. rewrite Hrep. reflexivity.
Defined.

(** X8.  On a worker that a trace produces from a new [K8sWorkerAgent],
    the result of a successful execution carries exactly one artifact,
    [k8s://<node>/<pod>/tasks/<task id>], where the node and pod names
    are [K8S_NODE_NAME] and [K8S_POD_NAME] of the environment at
    construction and "local" for a name the environment lacks. *)
Theorem k8s_result_has_one_artifact f cfg env evs h task m :
  loop_tasks (run f evs (K8sWorkerAgent_init cfg env)) !! h
    = Some {| coro := task; status := Awaiting |} →
  reported (wake f h (Returned m) (run f evs (K8sWorkerAgent_init cfg env))) =
    reported (run f evs (K8sWorkerAgent_init cfg env)) ++
    [{| result_task_id := task_id task; success := true; metrics := m;
        artifacts :=
          ["k8s://" +:+ getenv env "K8S_NODE_NAME" "local" +:+ "/" +:+
           getenv env "K8S_POD_NAME" "local" +:+ "/tasks/" +:+ task_id task] |}].
Proof.
  intros Hh.
  destruct (success_result_reported f (run f evs (K8sWorkerAgent_init cfg env)) h task m Hh)
    as [Hrep _].
  rewrite Hrep. destruct (run_same_setup_fields f evs (K8sWorkerAgent_init cfg env)) as [_ ->].
  reflexivity.
Qed.

Lemma k8s_result_has_one_artifact_witness :
  reported (wake float_of_name 0 _run_task_impl
              (run float_of_name [Request task_a; FirstStep 0]
                 (K8sWorkerAgent_init WorkerConfig_default {["K8S_POD_NAME" := "pod-7"]}))) =
    [{| result_task_id := "a"; success := true;
        metrics := {["duration" := 1.0%float]};
        artifacts := ["k8s://local/pod-7/tasks/a"] |}].
Proof.
  refine (eq_trans
    (k8s_result_has_one_artifact float_of_name WorkerConfig_default
       {["K8S_POD_NAME" := "pod-7"]} [Request task_a; FirstStep 0] 0 task_a
       {["duration" := 1.0%float]} _) _).
  - vm_compute; reflexivity.
  - vm_compute; reflexivity.
Defined.

(** ** Executions do not disturb each other *)

Lemma first_step_other f h w h' :
  h ≠ h' → loop_tasks (first_step f h w) !! h' = loop_tasks w !! h'.
Proof.
  intros Hne. unfold first_step.
  destruct (loop_tasks w !! h) as [[task [| |r]]|]; try done.
  pose proof (track_resources_setup task w) as (_ & _ & _ & Ht & _).
  destruct (track_resources task w) as [[[]|e] w1]; simpl in *.
  - rewrite list_lookup_alter_ne by done. by rewrite Ht.
  - pose proof (abort_setup f task e w1) as (_ & _ & _ & Ha & _).
    destruct (abort f task e w1) as [r w2]; simpl in *.
    rewrite list_lookup_alter_ne by done. by rewrite Ha, Ht.
Qed.

(** X9.  Starting, resuming or cancelling the task with one handle
    leaves the entry of every other task of the loop (its request and its
    status) exactly as it was. *)
Theorem other_tasks_untouched f h h' o w :
  h ≠ h' →
  loop_tasks (first_step f h w) !! h' = loop_tasks w !! h' ∧
  loop_tasks (wake f h o w) !! h' = loop_tasks w !! h' ∧
  loop_tasks (cancel f h w) !! h' = loop_tasks w !! h'.
Proof.
  intros Hne. split; [|split].
  - by apply first_step_other.
  - by apply wake_other.
  - by apply cancel_other.
Qed.

Lemma other_tasks_untouched_witness :
  loop_tasks (wake float_of_name 0 (Threw (OtherError "boom"))
                (run float_of_name [Request tenth; FirstStep 0; Request fifth; FirstStep 1]
                   fresh_worker)) !! 1
  = Some {| coro := fifth; status := Awaiting |}.
Proof.
  destruct (other_tasks_untouched float_of_name 0 1 (Threw (OtherError "boom"))
              (run float_of_name [Request tenth; FirstStep 0; Request fifth; FirstStep 1]
                 fresh_worker)) as (_ & Hw & _).
  - lia.
  - rewrite Hw. vm_compute; reflexivity.
Defined.

Lemma admission_keeps_tasks task w h t :
  loop_tasks w !! h = Some t →
  loop_tasks (_handle_task_request task w).2 !! h = Some t.
Proof.
  unfold _handle_task_request.
  pose proof (check_resources_pure (required_resources task) w) as Hp.
  destruct (_check_resources (required_resources task) w) as [[[|]|e] w1];
    simpl in Hp; subst w1; simpl; try done.
  destruct (_resource_semaphore w) as [|n] eqn:Hs; simpl; [done|].
  intros Hh. by apply lookup_app_l_Some.
Qed.

Lemma done_step f w ev h task r :
  loop_tasks w !! h = Some {| coro := task; status := Done r |} →
  loop_tasks (step f w ev) !! h = Some {| coro := task; status := Done r |}.
Proof.
  assert (Hcancel : ∀ h0 w0,
            loop_tasks w0 !! h = Some {| coro := task; status := Done r |} →
            loop_tasks (cancel f h0 w0) !! h = Some {| coro := task; status := Done r |}).
  { intros h0 w0 Hd. destruct (decide (h0 = h)) as [->|Hne].
    - unfold cancel. by rewrite Hd.
    - by rewrite cancel_other. }
  intros Hd. destruct ev as [t|h0|h0 o|h0|]; simpl.
  - by apply admission_keeps_tasks.
  - destruct (decide (h0 = h)) as [->|Hne].
    + unfold first_step. by rewrite Hd.
    + by rewrite first_step_other.
  - destruct (decide (h0 = h)) as [->|Hne].
    + unfold wake. by rewrite Hd.
    + by rewrite wake_other.
  - by apply Hcancel.
  - unfold shutdown. generalize ((map_to_list (_task_registry w)).*2) as hs.
    intros hs. revert w Hd. induction hs as [|h0 hs IH]; intros w Hd; simpl; [done|].
    by apply IH, Hcancel.
Qed.

(** X10.  A task that is done stays as it is: no later event (a request,
    a step, a wake-up, a cancellation, a shutdown) changes its entry, so
    the cleanup of an execution never runs a second time. *)
Theorem done_is_final f evs w h task r :
  loop_tasks w !! h = Some {| coro := task; status := Done r |} →
  loop_tasks (run f evs w) !! h = Some {| coro := task; status := Done r |} ∧
  (∀ o, wake f h o w = w) ∧ cancel f h w = w ∧ first_step f h w = w.
Proof.
  intros Hd. split.
  - unfold run. revert w Hd. induction evs as [|ev evs IH]; intros w Hd; simpl; [done|].
    by apply IH, done_step.
  - unfold wake, cancel, first_step. by rewrite Hd.
Qed.

Lemma done_is_final_witness :
  loop_tasks (run float_of_name [Wake 0 (Returned ∅); Cancel 0; Shutdown]
                (wake float_of_name 0 _run_task_impl worker_running_a)) !! 0
  = Some {| coro := task_a; status := Done (Ok tt) |}.
Proof.
  destruct (done_is_final float_of_name [Wake 0 (Returned ∅); Cancel 0; Shutdown]
              (wake float_of_name 0 _run_task_impl worker_running_a) 0 task_a (Ok tt))
    as [Hd _].
  - vm_compute; reflexivity.
  - exact Hd.
Defined.

(** ** Shutdown, in general *)

Lemma cancel_quiet f h w :
  reported (cancel f h w) = reported w ∧ logged (cancel f h w) = logged w.
Proof.
  unfold cancel.
  destruct (loop_tasks w !! h) as [[task [| |r]]|] eqn:Hh; try done.
  rewrite (wake_awaiting _ _ _ _ _ Hh). unfold set_status; simpl.
  by rewrite after_body_reported, after_body_logged.
Qed.

(** X11.  [shutdown] hands nothing to the reporter and logs nothing, on
    any worker: the executions it cancels end without a [TaskResult]. *)
Theorem shutdown_reports_nothing f w :
  reported (shutdown f w) = reported w ∧ logged (shutdown f w) = logged w.
Proof.
  unfold shutdown. generalize ((map_to_list (_task_registry w)).*2) as hs.
  intros hs. revert w. induction hs as [|h hs IH]; intros w; simpl; [done|].
  destruct (IH (cancel f h w)) as [-> ->]. apply cancel_quiet.
Qed.

Lemma release_resources_registry task w tid h :
  _task_registry (release_resources task w).2 !! tid = Some h →
  _task_registry w !! tid = Some h.
Proof.
  unfold release_resources, load_isub, bind, get, getitem, modify, raise, ret.
  repeat (case_match; simplify_eq/=); try done.
  intros Hd. by apply lookup_delete_Some in Hd as [_ Hd].
Qed.

Lemma after_body_registry f task o w tid h :
  _task_registry (after_body f task o w).2 !! tid = Some h →
  _task_registry w !! tid = Some h.
Proof.
  unfold after_body. rewrite try_finally_state. intros H.
  apply release_resources_registry in H.
  destruct (guarded_block_frame f task o w) as (_ & _ & Hreg & _). by rewrite Hreg in H.
Qed.

Lemma abort_registry f task e w tid h :
  _task_registry (abort f task e w).2 !! tid = Some h →
  _task_registry w !! tid = Some h.
Proof.
  unfold abort. rewrite try_finally_state. intros H.
  apply release_resources_registry in H.
  assert (Hf : same_ledger w (except_clauses f task e w).2).
  { unfold except_clauses.
    destruct e; simpl; try apply handle_task_failure_frame. apply same_ledger_refl. }
  destruct Hf as (_ & _ & Hreg & _). by rewrite Hreg in H.
Qed.

Lemma track_resources_registry task w :
  _task_registry (track_resources task w).2 = _task_registry w.
Proof.
  unfold track_resources, load_iadd, bind, get, getitem, modify, raise, ret.
  repeat (case_match; simplify_eq/=); done.
Qed.

Lemma registry_consistent_set_status h s w w1 :
  registry_consistent w →
  loop_tasks w1 = loop_tasks w →
  (∀ tid h0, _task_registry w1 !! tid = Some h0 → _task_registry w !! tid = Some h0) →
  registry_consistent (set_status h s w1).
Proof.
  intros Hc Ht Hreg tid h0 H. simpl in H. apply Hreg in H.
  destruct (Hc _ _ H) as (t & Hl & Hid). simpl. rewrite Ht.
  destruct (decide (h = h0)) as [->|Hne].
  - rewrite list_lookup_alter_eq, Hl. simpl. eauto.
  - rewrite list_lookup_alter_ne by done. eauto.
Qed.

Lemma registry_consistent_wake f h o w :
  registry_consistent w → registry_consistent (wake f h o w).
Proof.
  intros Hc. unfold wake.
  destruct (loop_tasks w !! h) as [[task [| |r]]|]; try done.
  pose proof (after_body_setup f task o w) as (_ & _ & _ & Ht & _).
  pose proof (after_body_registry f task o w) as Hreg.
  destruct (after_body f task o w) as [r w1]; simpl in *.
  by apply registry_consistent_set_status with w.
Qed.

Lemma registry_consistent_cancel f h w :
  registry_consistent w → registry_consistent (cancel f h w).
Proof.
  intros Hc. unfold cancel.
  destruct (loop_tasks w !! h) as [[task [| |r]]|]; try done.
  - by apply registry_consistent_set_status with w.
  - by apply registry_consistent_wake.
Qed.

Lemma registry_consistent_first_step f h w :
  registry_consistent w → registry_consistent (first_step f h w).
Proof.
  intros Hc. unfold first_step.
  destruct (loop_tasks w !! h) as [[task [| |r]]|]; try done.
  pose proof (track_resources_setup task w) as (_ & _ & _ & Ht & _).
  pose proof (track_resources_registry task w) as Hr.
  destruct (track_resources task w) as [[[]|e] w1]; simpl in *.
  - apply registry_consistent_set_status with w; [done..|]. intros ??. by rewrite Hr.
  - pose proof (abort_setup f task e w1) as (_ & _ & _ & Ha & _).
    pose proof (abort_registry f task e w1) as Hreg.
    destruct (abort f task e w1) as [r w2]; simpl in *.
    apply registry_consistent_set_status with w; [done|congruence|].
    intros tid h0 H. apply Hreg in H. by rewrite Hr in H.
Qed.

Lemma registry_consistent_handle_task_request task w :
  registry_consistent w → registry_consistent (_handle_task_request task w).2.
Proof.
  intros Hc. unfold _handle_task_request.
  pose proof (check_resources_pure (required_resources task) w) as Hp.
  destruct (_check_resources (required_resources task) w) as [[[|]|e] w1];
    simpl in Hp; subst w1; simpl; try done.
  destruct (_resource_semaphore w) as [|n]; simpl; [done|].
  intros tid h H. simpl in *.
  destruct (decide (task_id task = tid)) as [<-|Hne].
  - rewrite lookup_insert_eq in H. injection H as <-.
    exists {| coro := task; status := Created |}. split; [|reflexivity].
    rewrite lookup_app_r by done. by rewrite Nat.sub_diag.
  - rewrite lookup_insert_ne in H by done.
    destruct (Hc _ _ H) as (t & Hl & Hid). exists t. split; [|done].
    by apply lookup_app_l_Some.
Qed.

Lemma registry_consistent_shutdown f w :
  registry_consistent w → registry_consistent (shutdown f w).
Proof.
  unfold shutdown. generalize ((map_to_list (_task_registry w)).*2) as hs.
  intros hs. revert w. induction hs as [|h hs IH]; intros w Hw; simpl; [done|].
  by apply IH, registry_consistent_cancel.
Qed.

Lemma reachable_registry_consistent f w : reachable f w → registry_consistent w.
Proof.
  intros (cfg & k & evs & ->). unfold run.
  assert (Hinit : registry_consistent (WorkerAgent_init cfg k)).
  { intros tid h H. simpl in H. by rewrite lookup_empty in H. }
  revert Hinit. generalize (WorkerAgent_init cfg k) as w.
  induction evs as [|ev evs IH]; intros w Hw; simpl; [done|].
  apply IH. destruct ev; simpl;
    auto using registry_consistent_handle_task_request, registry_consistent_first_step,
      registry_consistent_wake, registry_consistent_cancel, registry_consistent_shutdown.
Qed.

Lemma is_awaiting_true w h :
  is_awaiting w h = true ↔
  ∃ task, loop_tasks w !! h = Some {| coro := task; status := Awaiting |}.
Proof.
  unfold is_awaiting. split.
  - destruct (loop_tasks w !! h) as [[task [| |r]]|]; try done. eauto.
  - by intros [task ->].
Qed.

Lemma is_awaiting_cancel_other f h w h' :
  h ≠ h' → is_awaiting (cancel f h w) h' = is_awaiting w h'.
Proof. intros Hne. unfold is_awaiting. by rewrite cancel_other. Qed.

(** What one cancellation does, by the state of the task. *)
Lemma cancel_by_status f h w t :
  well_formed w →
  loop_tasks w !! h = Some t →
  (∃ r, loop_tasks (cancel f h w) !! h = Some {| coro := coro t; status := Done r |}) ∧
  _task_registry (cancel f h w) =
    (if is_awaiting w h then delete (task_id (coro t)) (_task_registry w)
     else _task_registry w).
Proof.
  intros Hw Hh. destruct t as [task st]. unfold is_awaiting. rewrite Hh. simpl.
  destruct st as [| |r].
  - unfold cancel. rewrite Hh. split; [|done].
    eexists. by apply (set_status_lookup _ _ _ task Created).
  - destruct (started_task_kinds _ _ _ _ Hw Hh) as (lc & lm & rc & rm & H1 & H2 & H3 & H4).
    destruct (cancel_started f w h task lc lm rc rm Hh H1 H2 H3 H4) as (_ & _ & _ & Hreg & Hd).
    split; [eauto | done].
  - unfold cancel. rewrite Hh. split; [eauto | done].
Qed.

Lemma drain_entries f (entries : list (TaskID * nat)) : ∀ w,
  well_formed w →
  NoDup entries.*1 →
  (∀ tid h, (tid, h) ∈ entries →
     ∃ t, loop_tasks w !! h = Some t ∧ task_id (coro t) = tid) →
  (∀ tid h, (tid, h) ∈ entries → is_awaiting w h = true →
     _task_registry (foldl (λ w' h, cancel f h w') w entries.*2) !! tid = None) ∧
  (∀ tid, (∀ h, (tid, h) ∈ entries → is_awaiting w h = false) →
     _task_registry (foldl (λ w' h, cancel f h w') w entries.*2) !! tid
     = _task_registry w !! tid) ∧
  (∀ tid h, (tid, h) ∈ entries →
     ∃ task r, loop_tasks (foldl (λ w' h, cancel f h w') w entries.*2) !! h =
               Some {| coro := task; status := Done r |}) ∧
  (∀ h, h ∉ entries.*2 →
     loop_tasks (foldl (λ w' h, cancel f h w') w entries.*2) !! h = loop_tasks w !! h).
Proof.
  induction entries as [|[tid h] entries IH]; intros w Hw Hnd Hst.
  - simpl. split; [|split; [|split]]; try done.
    + intros ?? H. by apply elem_of_nil in H.
    + intros ?? H. by apply elem_of_nil in H.
  - simpl in Hnd. apply NoDup_cons in Hnd as [Hnotin Hnd].
    destruct (Hst tid h) as (t & Hh & Hid); [left|].
    destruct (cancel_by_status f h w t Hw Hh) as ([r Hdone] & Hreg).
    assert (Hothers : ∀ tid' h', (tid', h') ∈ entries → h' ≠ h).
    { intros tid' h' Hin ->. destruct (Hst tid' h) as (t' & Hh' & Hid'); [by right|].
      rewrite Hh in Hh'. simplify_eq. apply Hnotin.
      apply list_elem_of_fmap. by exists (task_id (coro t'), h). }
    destruct (IH (cancel f h w)) as (IHgone & IHkept & IHdone & IHother).
    { by apply well_formed_cancel. }
    { done. }
    { intros tid' h' Hin. rewrite cancel_other.
      - apply Hst. by right.
      - intros ->. by eapply Hothers. }
    assert (Htail : ∀ h0, (tid, h0) ∈ entries → is_awaiting (cancel f h w) h0 = false).
    { intros h0 Hin. exfalso. apply Hnotin. apply list_elem_of_fmap. by exists (tid, h0). }
    assert (Hfold : foldl (λ w' h, cancel f h w') w ((tid, h) :: entries).*2
                    = foldl (λ w' h, cancel f h w') (cancel f h w) entries.*2)
      by reflexivity.
    rewrite Hfold. clear Hfold.
    split; [|split; [|split]].
    + intros tid' h' Hin Ha. apply elem_of_cons in Hin as [Heq|Hin].
      * simplify_eq. rewrite (IHkept _ Htail), Hreg, Ha. apply lookup_delete_eq.
      * apply (IHgone tid' h' Hin). rewrite is_awaiting_cancel_other; [done|].
        intros ->. by eapply Hothers.
    + intros tid' Hna. rewrite IHkept.
      * rewrite Hreg. destruct (is_awaiting w h) eqn:Ha; [|done].
        apply lookup_delete_ne. intros Heq. subst tid tid'.
        specialize (Hna h). rewrite Ha in Hna. discriminate Hna. left.
      * intros h0 Hin. rewrite is_awaiting_cancel_other.
        -- apply Hna. by right.
        -- intros ->. by eapply Hothers.
    + intros tid' h' Hin. apply elem_of_cons in Hin as [Heq|Hin].
      * simplify_eq. exists (coro t), r. rewrite IHother; [done|].
        intros Hc. apply list_elem_of_fmap in Hc as ([t2 h2] & ? & Hin2). simpl in *. subst h2.
        by eapply Hothers.
      * by eapply IHdone.
    + intros h' Hnin. rewrite IHother.
      * apply cancel_other. intros ->. apply Hnin. left.
      * intros Hc. apply Hnin. by right.
Qed.

(** X12.  What [shutdown] leaves behind on a reachable worker: every
    task that was registered is done, and the registry loses exactly the
    entries whose execution was under way; the entry of a task that had
    not started yet, or was done already, stays. *)
Theorem shutdown_registry f w :
  reachable f w →
  (∀ tid h, _task_registry w !! tid = Some h →
     ∃ task r, loop_tasks (shutdown f w) !! h = Some {| coro := task; status := Done r |}) ∧
  (∀ tid, _task_registry (shutdown f w) !! tid =
          match _task_registry w !! tid with
          | Some h => if is_awaiting w h then None else Some h
          | None => None
          end).
Proof.
  intros Hr. pose proof (reachable_well_formed _ _ Hr) as Hw.
  pose proof (reachable_registry_consistent _ _ Hr) as Hc.
  unfold shutdown.
  destruct (drain_entries f (map_to_list (_task_registry w)) w Hw)
    as (Hgone & Hkept & Hdone & _).
  { apply NoDup_fst_map_to_list. }
  { intros tid h Hin. apply Hc. by apply elem_of_map_to_list. }
  split.
  - intros tid h Hl. apply (Hdone tid h). by apply elem_of_map_to_list.
  - intros tid. destruct (_task_registry w !! tid) as [h|] eqn:Hl.
    + destruct (is_awaiting w h) eqn:Ha.
      * apply (Hgone tid h); [by apply elem_of_map_to_list | done].
      * rewrite Hkept; [done|]. intros h0 Hin.
        apply elem_of_map_to_list in Hin. by simplify_eq.
    + rewrite Hkept; [done|]. intros h0 Hin.
      apply elem_of_map_to_list in Hin. by simplify_eq.
Qed.

Lemma shutdown_registry_witness :
  _task_registry
    (shutdown float_of_name
       (run float_of_name [Request tenth; FirstStep 0; Request fifth] fresh_worker))
    !! "tenth" = None ∧
  _task_registry
    (shutdown float_of_name
       (run float_of_name [Request tenth; FirstStep 0; Request fifth] fresh_worker))
    !! "fifth" = Some 1.
Proof.
  destruct (shutdown_registry float_of_name
              (run float_of_name [Request tenth; FirstStep 0; Request fifth] fresh_worker))
    as [_ Hreg].
  - exists WorkerConfig_default, None, [Request tenth; FirstStep 0; Request fifth].
    reflexivity.
  - rewrite !Hreg. split; vm_compute; reflexivity.
Defined.



(** X14.  The cleanup removes the registry entry by task id, whoever it
    belongs to.  When two executions carry the same id and the registry
    holds the handle of the other one, the end of this one deletes that
    entry and leaves the other execution as it was, now unregistered (so
    a later [shutdown] does not cancel it). *)
Theorem cleanup_unregisters_namesake f w h h' task o :
  reachable f w →
  loop_tasks w !! h = Some {| coro := task; status := Awaiting |} →
  _task_registry w !! task_id task = Some h' →
  h' ≠ h →
  _task_registry (wake f h o w) !! task_id task = None ∧
  loop_tasks (wake f h o w) !! h' = loop_tasks w !! h' ∧
  loop_tasks (shutdown f (wake f h o w)) !! h' = loop_tasks w !! h'.
Proof.
  intros Hr Hh Hreg Hne. pose proof (reachable_well_formed _ _ Hr) as Hw.
  destruct (started_task_kinds _ _ _ _ Hw Hh) as (lc & lm & rc & rm & H1 & H2 & H3 & H4).
  destruct (after_body_cleanup f task o w lc lm rc rm H1 H2 H3 H4) as (_ & Hdel & _ & _).
  assert (Hgone : ∀ tid, _task_registry (wake f h o w) !! tid = Some h' → False).
  { intros tid Hl. rewrite (wake_awaiting _ _ _ _ _ Hh) in Hl. simpl in Hl.
    rewrite Hdel in Hl. apply lookup_delete_Some in Hl as [Hd Hl].
    destruct (reachable_registry_consistent _ _ Hr _ _ Hl) as (t & Ht & Hid).
    destruct (reachable_registry_consistent _ _ Hr _ _ Hreg) as (t' & Ht' & Hid').
    rewrite Ht in Ht'. by simplify_eq. }
  split; [|split].
  - rewrite (wake_awaiting _ _ _ _ _ Hh). simpl. rewrite Hdel. apply lookup_delete_eq.
  - by apply wake_other.
  - rewrite <- (wake_other f h o w h') by done.
    assert (Hw' : well_formed (wake f h o w)) by by apply well_formed_wake.
    unfold shutdown.
    destruct (drain_entries f (map_to_list (_task_registry (wake f h o w))) (wake f h o w) Hw')
      as (_ & _ & _ & Hother).
    { apply NoDup_fst_map_to_list. }
    { intros tid h0 Hin. apply (registry_consistent_wake f h o w).
      - by apply (reachable_registry_consistent f).
      - by apply elem_of_map_to_list. }
    apply Hother. intros Hin.
    apply list_elem_of_fmap in Hin as ([tid h0] & -> & Hin). simpl in *.
    apply elem_of_map_to_list in Hin. by eapply Hgone.
Qed.

Lemma cleanup_unregisters_namesake_witness :
  _task_registry
    (wake float_of_name 0 _run_task_impl
       (run float_of_name [Request task_a; FirstStep 0; Request task_a_again; FirstStep 1]
          fresh_worker)) !! "a" = None ∧
  is_awaiting
    (shutdown float_of_name
       (wake float_of_name 0 _run_task_impl
          (run float_of_name [Request task_a; FirstStep 0; Request task_a_again; FirstStep 1]
             fresh_worker))) 1 = true.
Proof.
  destruct (cleanup_unregisters_namesake float_of_name
              (run float_of_name [Request task_a; FirstStep 0; Request task_a_again; FirstStep 1]
                 fresh_worker) 0 1 task_a _run_task_impl) as (Hreg & _ & Hsh).
  - exists WorkerConfig_default, None,
      [Request task_a; FirstStep 0; Request task_a_again; FirstStep 1]. reflexivity.
  - vm_compute; reflexivity.
  - vm_compute; reflexivity.
  - lia.
  - split; [exact Hreg|]. unfold is_awaiting. rewrite Hsh. vm_compute; reflexivity.
Defined.

(** ** Messages *)

(** X15.  Whatever the message and however its payload reads,
    [_process_message] leaves the load, the reporter and the log as they
    are and keeps every task of the loop; a message whose type is not
    "TaskRequest" is answered [unhandled_message_type] with the worker
    unchanged, and one whose payload cannot be read raises with the
    worker unchanged. *)
Theorem process_message_frame (P : Type) (parse : P → result TaskRequest)
    (message : AgentMessage P) w :
  _current_load (_process_message P parse message w).2 = _current_load w ∧
  reported (_process_message P parse message w).2 = reported w ∧
  logged (_process_message P parse message w).2 = logged w ∧
  (∀ h t, loop_tasks w !! h = Some t →
          loop_tasks (_process_message P parse message w).2 !! h = Some t) ∧
  (String.eqb (payload_type message) "TaskRequest" = false →
   _process_message P parse message w
     = (Replied {["status" := "unhandled_message_type"]}, w)) ∧
  (∀ e, String.eqb (payload_type message) "TaskRequest" = true →
        parse (message_payload message) = Raise e →
        _process_message P parse message w = (Failed e, w)).
Proof.
  unfold _process_message.
  destruct (String.eqb (payload_type message) "TaskRequest") eqn:Ht.
  - destruct (parse (message_payload message)) as [task|e] eqn:Hp.
    + destruct (admission_frame task w) as (A1 & A2 & A3 & _ & _ & A6).
      repeat split; try done.
    + repeat split; try done. by intros e' _ [= <-].
  - repeat split; try done.
Qed.

(** ** The validator and the check *)

(** X16.  Limits that [validate_resources] accepts are returned
    unchanged and carry both kinds, neither at or below zero; on a
    reachable worker configured with them, the check of a request that
    names both kinds returns an answer and never raises. *)
Theorem validated_limits_answer f w required v rc rm :
  reachable f w →
  validate_resources (resource_limits (worker_config w)) = Ok v →
  required !! "cpu" = Some rc →
  required !! "mem_gb" = Some rm →
  v = resource_limits (worker_config w) ∧
  (∃ limc limm, v !! "cpu" = Some limc ∧ v !! "mem_gb" = Some limm ∧
                PrimFloat.leb limc 0 = false ∧ PrimFloat.leb limm 0 = false) ∧
  ∃ b, _check_resources required w = (Ok b, w).
Proof.
  intros Hr Hv Hc Hm. apply reachable_well_formed in Hr as ([[lc Hlc] [lm Hlm]] & _).
  unfold validate_resources in Hv.
  destruct (resource_limits (worker_config w) !! "cpu") as [limc|] eqn:H1; [|done].
  destruct (PrimFloat.leb limc 0) eqn:Hz1; [done|].
  destruct (resource_limits (worker_config w) !! "mem_gb") as [limm|] eqn:H2; [|done].
  destruct (PrimFloat.leb limm 0) eqn:Hz2; [done|].
  injection Hv as <-. split; [done|]. split; [by eauto 10|].
  eexists. by apply (check_resources_value w required lc rc limc lm rm limm).
Qed.

Lemma validated_limits_answer_witness :
  ∃ b, _check_resources default_required_resources worker_running_a
       = (Ok b, worker_running_a).
Proof.
  destruct (validated_limits_answer float_of_name worker_running_a
              default_required_resources default_resource_limits 0.5 1) as (_ & _ & Hb).
  - exists WorkerConfig_default, None, [Request task_a; FirstStep 0]. reflexivity.
  - vm_compute; reflexivity.
  - vm_compute; reflexivity.
  - vm_compute; reflexivity.
  - exact Hb.
Defined.

(** ** The registry of agents *)

Lemma get_metrics_ledger_ok qsize w :
  ledger_ok w →
  ∃ m, get_metrics qsize w = Ok m ∧
       active_tasks m = size (_task_registry w) ∧ queue_size m = qsize.
Proof.
  intros [[c Hc] [m Hm]]. unfold get_metrics. rewrite Hc, Hm. eexists. repeat split.
Qed.

Lemma get_worker_metrics_list (l : list (string * agent)) :
  NoDup l.*1 →
  (∀ aid w qsize, (aid, AWorker w qsize) ∈ l → ledger_ok w) →
  ∃ ms : gmap string WorkerMetrics,
    foldr
      (λ '(aid, a) rest,
         match a with
         | OtherAgent => rest
         | AWorker w qsize =>
             match get_metrics qsize w with
             | Raise e => Raise e
             | Ok m =>
                 match rest with
                 | Raise e => Raise e
                 | Ok ms => Ok (<[aid := m]> ms)
                 end
             end
         end)
      (Ok ∅) l = Ok ms ∧
    ∀ aid, ms !! aid = (list_to_map l : gmap string agent) !! aid ≫= metrics_of.
Proof.
  induction l as [|[aid a] l IH]; intros Hnd Hok.
  - exists ∅. split; [done|]. intros aid. by rewrite !lookup_empty.
  - simpl in Hnd. apply NoDup_cons in Hnd as [Hnotin Hnd].
    destruct IH as (ms & Hms & Hlook); [done | |].
    { intros aid' w q Hin. apply (Hok aid' w q). by right. }
    simpl. rewrite Hms. destruct a as [w q|].
    + destruct (get_metrics_ledger_ok q w) as (m & Hm & _).
      { apply (Hok aid w q). left. }
      rewrite Hm. exists (<[aid := m]> ms). split; [done|].
      intros aid'. destruct (decide (aid = aid')) as [->|Hne].
      * rewrite !lookup_insert_eq. simpl. by rewrite Hm.
      * rewrite !lookup_insert_ne by done. apply Hlook.
    + exists ms. split; [done|].
      intros aid'. destruct (decide (aid = aid')) as [->|Hne].
      * rewrite lookup_insert_eq. simpl. rewrite Hlook.
        by rewrite (not_elem_of_list_to_map_1 _ _ Hnotin).
      * rewrite lookup_insert_ne by done. apply Hlook.
Qed.

(** X17.  When every worker in the registry of agents is reachable,
    [get_worker_metrics] returns a dict and does not raise: it has an
    entry exactly for the ids of the workers, each with the metrics of
    that worker, and none for agents of other classes. *)
Theorem get_worker_metrics_total f (registry : gmap string agent) :
  (∀ aid w qsize, registry !! aid = Some (AWorker w qsize) → reachable f w) →
  ∃ ms, get_worker_metrics registry = Ok ms ∧
        ∀ aid, ms !! aid = registry !! aid ≫= metrics_of.
Proof.
  intros Hr. unfold get_worker_metrics.
  destruct (get_worker_metrics_list (map_to_list registry)) as (ms & Hms & Hlook).
  - apply NoDup_fst_map_to_list.
  - intros aid w q Hin. apply elem_of_map_to_list in Hin.
    by apply (reachable_well_formed f), (Hr aid w q).
  - exists ms. split; [done|]. intros aid. by rewrite Hlook, list_to_map_to_list.
Qed.

Lemma get_worker_metrics_total_witness :
  ∃ ms, get_worker_metrics
          (<["w1" := AWorker worker_running_a 2]> {["o1" := OtherAgent]}) = Ok ms ∧
        ms !! "o1" = None ∧
        active_tasks <$> ms !! "w1" = Some 1.
Proof.
  destruct (get_worker_metrics_total float_of_name
              (<["w1" := AWorker worker_running_a 2]> {["o1" := OtherAgent]}))
    as (ms & Hms & Hlook).
  - intros aid w q H.
    destruct (decide (aid = "w1")) as [->|Hne].
    + rewrite lookup_insert_eq in H. injection H as <- <-.
      exists WorkerConfig_default, None, [Request task_a; FirstStep 0]. reflexivity.
    + rewrite lookup_insert_ne in H by done.
      apply lookup_singleton_Some in H as [_ H]. discriminate H.
  - exists ms. split; [exact Hms|]. rewrite !Hlook. split; vm_compute; reflexivity.
Defined.

(** ** A ledger that is not a number *)

Lemma add_nan_l y : PrimFloat.add PrimFloat.nan y = PrimFloat.nan.
Proof. apply Prim2SF_inj. rewrite add_spec. reflexivity. Qed.

Lemma sub_nan_l y : PrimFloat.sub PrimFloat.nan y = PrimFloat.nan.
Proof. apply Prim2SF_inj. rewrite sub_spec. reflexivity. Qed.

Lemma leb_nan_l y : PrimFloat.leb PrimFloat.nan y = false.
Proof. rewrite leb_spec. reflexivity. Qed.

Lemma load_iadd_nan k required w :
  cpu_load_is_nan w → cpu_load_is_nan (load_iadd k required w).2.
Proof.
  unfold cpu_load_is_nan, load_iadd, bind, get, getitem, modify, raise, ret. intros Hn.
  destruct (_current_load w !! k) as [l|] eqn:Hl; simpl; [|done].
  destruct (required !! k) as [r|]; simpl; [|done].
  destruct (decide (k = "cpu")) as [->|Hne].
  - rewrite Hn in Hl. injection Hl as <-. rewrite add_nan_l. apply lookup_insert_eq.
  - by rewrite lookup_insert_ne.
Qed.

Lemma load_isub_nan k required w :
  cpu_load_is_nan w → cpu_load_is_nan (load_isub k required w).2.
Proof.
  unfold cpu_load_is_nan, load_isub, bind, get, getitem, modify, raise, ret. intros Hn.
  destruct (_current_load w !! k) as [l|] eqn:Hl; simpl; [|done].
  destruct (required !! k) as [r|]; simpl; [|done].
  destruct (decide (k = "cpu")) as [->|Hne].
  - rewrite Hn in Hl. injection Hl as <-. rewrite sub_nan_l. apply lookup_insert_eq.
  - by rewrite lookup_insert_ne.
Qed.

Lemma bind_nan {A B} (m : M A) (k : A → M B) w :
  (cpu_load_is_nan w → cpu_load_is_nan (m w).2) →
  (∀ a w1, cpu_load_is_nan w1 → cpu_load_is_nan (k a w1).2) →
  cpu_load_is_nan w → cpu_load_is_nan (bind m k w).2.
Proof.
  intros Hm Hk Hn. unfold bind. destruct (m w) as [[a|e] w1]; simpl in *; auto.
Qed.

Lemma track_resources_nan task w :
  cpu_load_is_nan w → cpu_load_is_nan (track_resources task w).2.
Proof.
  unfold track_resources. apply bind_nan; [apply load_iadd_nan|].
  intros _ w1. apply load_iadd_nan.
Qed.

Lemma release_resources_nan task w :
  cpu_load_is_nan w → cpu_load_is_nan (release_resources task w).2.
Proof.
  unfold release_resources. apply bind_nan; [apply load_isub_nan|].
  intros _ w1. apply bind_nan; [apply load_isub_nan|].
  by intros _ w2.
Qed.

Lemma after_body_nan f task o w :
  cpu_load_is_nan w → cpu_load_is_nan (after_body f task o w).2.
Proof.
  intros Hn. unfold after_body. rewrite try_finally_state.
  apply release_resources_nan. unfold cpu_load_is_nan.
  destruct (guarded_block_frame f task o w) as (_ & _ & _ & _ & -> & _). exact Hn.
Qed.

Lemma abort_nan f task e w :
  cpu_load_is_nan w → cpu_load_is_nan (abort f task e w).2.
Proof.
  intros Hn. unfold abort. rewrite try_finally_state.
  apply release_resources_nan. unfold cpu_load_is_nan.
  assert (Hf : same_ledger w (except_clauses f task e w).2).
  { unfold except_clauses.
    destruct e; simpl; try apply handle_task_failure_frame. apply same_ledger_refl. }
  destruct Hf as (_ & _ & _ & _ & -> & _). exact Hn.
Qed.

Lemma wake_nan f h o w : cpu_load_is_nan w → cpu_load_is_nan (wake f h o w).
Proof.
  intros Hn. unfold wake.
  destruct (loop_tasks w !! h) as [[task [| |r]]|]; try done.
  pose proof (after_body_nan f task o w Hn) as Ha.
  by destruct (after_body f task o w).
Qed.

Lemma cancel_nan f h w : cpu_load_is_nan w → cpu_load_is_nan (cancel f h w).
Proof.
  intros Hn. unfold cancel.
  destruct (loop_tasks w !! h) as [[task [| |r]]|]; try done.
  by apply wake_nan.
Qed.

Lemma step_nan f w ev : cpu_load_is_nan w → cpu_load_is_nan (step f w ev).
Proof.
  intros Hn. destruct ev as [task|h|h o|h|]; simpl.
  - unfold cpu_load_is_nan. by destruct (admission_frame task w) as (-> & _).
  - unfold first_step.
    destruct (loop_tasks w !! h) as [[task [| |r]]|]; try done.
    pose proof (track_resources_nan task w Hn) as Ht.
    destruct (track_resources task w) as [[[]|e] w1]; simpl in *; [done|].
    pose proof (abort_nan f task e w1 Ht) as Ha.
    by destruct (abort f task e w1).
  - by apply wake_nan.
  - by apply cancel_nan.
  - unfold shutdown. generalize ((map_to_list (_task_registry w)).*2) as hs.
    intros hs. revert w Hn. induction hs as [|h hs IH]; intros w Hn; simpl; [done|].
    by apply IH, cancel_nan.
Qed.

Lemma nan_load_rejects task w :
  cpu_load_is_nan w →
  ∀ r, (_handle_task_request task w).1 = Replied r →
       r = {["error" := "insufficient_resources"]}.
Proof.
  unfold cpu_load_is_nan. intros Hn r.
  unfold _handle_task_request, _check_resources, bind, get.
  rewrite (getitem_Some _ _ _ _ Hn).
  destruct (required_resources task !! "cpu") as [rc|] eqn:Hc.
  2:{ by rewrite (getitem_None _ _ _ Hc). }
  rewrite (getitem_Some _ _ _ _ Hc).
  destruct (resource_limits (worker_config w) !! "cpu") as [limc|] eqn:Hl.
  2:{ by rewrite (getitem_None _ _ _ Hl). }
  rewrite (getitem_Some _ _ _ _ Hl), add_nan_l, leb_nan_l. simpl. by intros [= <-].
Qed.

(** X18.  Once the cpu entry of the ledger is not a number it stays so
    through every later event, and from then on no request is ever
    answered "queued": every reply is [insufficient_resources].  (The
    ledger gets there when a task with an infinite amount finishes; the
    check admits a negative infinity.) *)
Theorem nan_load_blocks_admission f evs w task :
  cpu_load_is_nan w →
  cpu_load_is_nan (run f evs w) ∧
  ∀ r, (_handle_task_request task (run f evs w)).1 = Replied r →
       r = {["error" := "insufficient_resources"]}.
Proof.
  intros Hn.
  assert (Hrun : cpu_load_is_nan (run f evs w)).
  { unfold run. revert w Hn. induction evs as [|ev evs IH]; intros w Hn; simpl; [done|].
    by apply IH, step_nan. }
  split; [done|]. by apply nan_load_rejects.
Qed.

Lemma nan_load_blocks_admission_witness :
  cpu_load_is_nan worker_nan_load ∧
  cpu_load_is_nan (run float_of_name [Request task_a] worker_nan_load) ∧
  ∀ r, (_handle_task_request task_b
          (run float_of_name [Request task_a] worker_nan_load)).1 = Replied r →
       r = {["error" := "insufficient_resources"]}.
Proof.
  split; [vm_compute; reflexivity|].
  apply (nan_load_blocks_admission float_of_name [Request task_a] worker_nan_load task_b).
  vm_compute; reflexivity.
Defined.
